(** * Pane linking and file synchronisation of the sync-file-only plugin

    A shallow embedding of [SyncFileOnlyPlugin] (src/unnamed/part_000, the
    later revision, and src/src/main.ts, the earlier one) and the
    properties of its link registry, partner search, propagation guard and
    clean-up.

    The plugin object is a record that is passed in and out of every
    method; the host application (the Obsidian workspace) is a record of
    what the plugin can observe of it during one callback.  Calls the
    plugin makes into the host are collected in a log; where the plugin
    calls [openFile], what the host runs before that call returns, the
    plugin's own handlers included, is a parameter of the method.  The indicator
    elements drawn on the tab headers live in the host's document and are
    left out; [isMarkedLinked] is the condition under which one is drawn. *)

From stdpp Require Import gmap strings list fin_maps.

Open Scope string_scope.

(** ** Data model *)

(** A [WorkspaceLeaf] and a [WorkspaceItem] (the parents of a leaf) are
    objects compared by reference ([===]); a handle stands for the
    reference. *)
Abbreviation Leaf := nat (only parsing).
Abbreviation Item := nat (only parsing).

Record TFile := { path : string }.

(** [leaf.view]: the plugin tests ['file' in view] and then reads
    [view.file], which may be [null]. *)
Inductive View :=
| OtherView
| FileView (file : option TFile).

(** [view && 'file' in view ? view.file : null] *)
Definition fileOfView (view : option View) : option TFile :=
  match view with
  | Some (FileView file) => file
  | _ => None
  end.

(** [Set<WorkspaceLeaf>] keeps insertion order ([Array.from] lists the
    members in that order) and no duplicates. *)
Definition set_add (x : Leaf) (s : list Leaf) : list Leaf :=
  if decide (x ∈ s) then s else s ++ [x].

Definition set_clear (s : list Leaf) : list Leaf := [].

(** The fields of the plugin object. *)
Record Plugin := {
  settings_enabled : bool;
  isSyncing : bool;
  linkedLeaves : gmap nat (list nat)
}.

Definition with_enabled (b : bool) (s : Plugin) : Plugin :=
  {| settings_enabled := b; isSyncing := isSyncing s;
     linkedLeaves := linkedLeaves s |}.

Definition with_isSyncing (b : bool) (s : Plugin) : Plugin :=
  {| settings_enabled := settings_enabled s; isSyncing := b;
     linkedLeaves := linkedLeaves s |}.

Definition with_linkedLeaves (m : gmap nat (list nat)) (s : Plugin) : Plugin :=
  {| settings_enabled := settings_enabled s; isSyncing := isSyncing s;
     linkedLeaves := m |}.

(** The plugin as constructed: [isSyncing = false], [linkedLeaves = new Map()];
    [enabled] comes from the loaded settings. *)
Definition initial (enabled : bool) : Plugin :=
  {| settings_enabled := enabled; isSyncing := false; linkedLeaves := ∅ |}.

(** What one callback can observe of the host. *)
Record Workspace := {
  (** the leaves in the order [iterateAllLeaves] visits them *)
  iterateAllLeaves : list Leaf;
  (** [workspace.getLeaf()] / [workspace.activeLeaf] *)
  getLeaf : option Leaf;
  leaf_view : Leaf → option View;
  (** [leaf.parent], [leaf.parent.parent], ... up to the first missing one *)
  parents : Leaf → list Item;
  rootSplit : option Item;
  (** the result of [createLeafBySplit(leaf, 'vertical', false)] *)
  createLeafBySplit : Leaf → option Leaf;
  (** whether that call throws instead *)
  createLeafBySplit_throws : Leaf → bool;
  (** whether [leaf.openFile(file)] throws instead of returning its promise *)
  openFile_throws : Leaf → TFile → bool;
  (** the [active-leaf-change] events the host raises before
      [leaf.openFile(file)] returns *)
  raisedByOpenFile : Leaf → TFile → list (option Leaf)
}.

(** Calls of the plugin into the host. *)
Inductive HostCall :=
| CreateLeafBySplit (source : Leaf)
| OpenFile (target : Leaf) (file : TFile)
| NewNotice (message : string).

(** How a method ends: it returns, an exception leaves it, or the model
    ran out of fuel below it. *)
Inductive Completion (A : Type) :=
| Returns (a : A)
| Throws
| OutOfFuel.
Arguments Returns {A} a.
Arguments Throws {A}.
Arguments OutOfFuel {A}.

Record Run (A : Type) := mkRun {
  completion : Completion A;
  after : Plugin;
  calls : list HostCall
}.
Arguments mkRun {A} _ _ _.
Arguments completion {A} _.
Arguments after {A} _.
Arguments calls {A} _.

(** ** Partner search ([linkLeafWithPartner], the [iterateAllLeaves] callback) *)

(** The [while (parent)] walk up the parent chain. *)
Fixpoint reachesRoot (root : Item) (chain : list Item) : bool :=
  match chain with
  | [] => false
  | parent :: rest =>
      if decide (parent = root) then true else reachesRoot root rest
  end.

Definition isInRootSplit (w : Workspace) (root : Item) (leaf : Leaf) : bool :=
  reachesRoot root (parents w leaf).

(** One call of the callback; [partner] is the captured variable. *)
Definition visitLeaf (w : Workspace) (root : Item) (activeLeaf : Leaf)
    (activeFilePath : string) (partner : option Leaf) (leaf : Leaf) : option Leaf :=
  if negb (isInRootSplit w root leaf) then partner
  else if bool_decide (leaf ≠ activeLeaf) && bool_decide (partner = None) then
    match fileOfView (leaf_view w leaf) with
    | Some leafFile =>
        if bool_decide (path leafFile = activeFilePath) then Some leaf else partner
    | None => partner
    end
  else partner.

Definition findPartner (w : Workspace) (activeLeaf : Leaf)
    (activeFilePath : string) : option Leaf :=
  match rootSplit w with
  | Some root =>
      foldl (visitLeaf w root activeLeaf activeFilePath) None (iterateAllLeaves w)
  | None => None
  end.

(** ** The link registry *)

(** [if (!this.linkedLeaves.has(leaf)) this.linkedLeaves.set(leaf, new Set())] *)
Definition ensureSet (leaf : Leaf) (m : gmap nat (list nat)) : gmap nat (list nat) :=
  if decide (is_Some (m !! leaf)) then m else <[leaf := []]> m.

(** The statements under [if (partner)]: both sets are made to exist,
    both are emptied in place, each leaf is added to the other's set. *)
Definition recordPair (activeLeaf partner : Leaf)
    (m : gmap nat (list nat)) : gmap nat (list nat) :=
  let m1 := ensureSet activeLeaf m in
  let m2 := ensureSet partner m1 in
  let m3 := alter set_clear activeLeaf m2 in
  let m4 := alter set_clear partner m3 in
  let m5 := alter (set_add partner) activeLeaf m4 in
  alter (set_add activeLeaf) partner m5.

(** The [if (!partner && options.createIfNone)] block of part_000: an
    exception of the host leaves the method.  [openFile] stands for what
    happens inside the host between the call [newLeaf.openFile(activeFile)]
    and its return, callbacks into the plugin included: it is given the
    plugin as it is at the call and hands back the plugin as it is at the
    return. *)
Definition createPartner (w : Workspace)
    (openFile : Leaf → TFile → Plugin → Run unit)
    (s : Plugin) (activeLeaf : Leaf) (activeFile : TFile) : Run (option Leaf) :=
  if createLeafBySplit_throws w activeLeaf
  then mkRun Throws s [CreateLeafBySplit activeLeaf]
  else
    match createLeafBySplit w activeLeaf with
    | Some newLeaf =>
        let r := openFile newLeaf activeFile s in
        mkRun match completion r with
              | Returns _ => Returns (Some newLeaf)
              | Throws => Throws
              | OutOfFuel => OutOfFuel
              end
              (after r)
              (CreateLeafBySplit activeLeaf :: OpenFile newLeaf activeFile :: calls r)
    | None => mkRun (Returns None) s [CreateLeafBySplit activeLeaf]
    end.

(** The search, then the split when nothing was found and it is allowed:
    the value of [partner] when [if (partner)] is reached, unless an
    exception left the method before. *)
Definition resolvePartner (w : Workspace)
    (openFile : Leaf → TFile → Plugin → Run unit)
    (s : Plugin) (activeLeaf : Leaf) (activeFile : TFile)
    (createIfNone : bool) : Run (option Leaf) :=
  match findPartner w activeLeaf (path activeFile) with
  | Some found => mkRun (Returns (Some found)) s []
  | None =>
      if createIfNone then createPartner w openFile s activeLeaf activeFile
      else mkRun (Returns None) s []
  end.

Definition linkLeafWithPartner (w : Workspace)
    (openFile : Leaf → TFile → Plugin → Run unit)
    (s : Plugin) (activeLeaf : Leaf) (createIfNone : bool) : Run (option Leaf) :=
  match fileOfView (leaf_view w activeLeaf) with
  | None => mkRun (Returns None) s []
  | Some activeFile =>
      let r := resolvePartner w openFile s activeLeaf activeFile createIfNone in
      match completion r with
      | Returns (Some partner) =>
          mkRun (Returns (Some partner))
                (with_linkedLeaves
                   (recordPair activeLeaf partner (linkedLeaves (after r))) (after r))
                (calls r)
      | _ => r
      end
  end.

(** ** Reading the registry *)

(** The partner [syncFileToLinkedLeaves] picks for a leaf:
    [const [leaf] = Array.from(linkedSet)] under [linkedSet && linkedSet.size > 0]. *)
Definition getPartner (m : gmap nat (list nat)) (leaf : Leaf) : option Leaf :=
  match m !! leaf with
  | Some (first :: _) => Some first
  | _ => None
  end.

(** The leaves [updateLeafVisualIndicators] marks: [linkedSet.size > 0]. *)
Definition isMarkedLinked (m : gmap nat (list nat)) (leaf : Leaf) : bool :=
  match m !! leaf with
  | Some (_ :: _) => true
  | _ => false
  end.

Definition linkedTo (m : gmap nat (list nat)) (a b : Leaf) : Prop :=
  ∃ set, m !! a = Some set ∧ b ∈ set.

(** The two halves of the pairing invariant. *)
Definition symmetric (m : gmap nat (list nat)) : Prop :=
  ∀ a b, linkedTo m a b → linkedTo m b a.

Definition exclusive (m : gmap nat (list nat)) : Prop :=
  ∀ leaf set, m !! leaf = Some set → (length set ≤ 1)%nat.

Definition unlinked (m : gmap nat (list nat)) (leaf : Leaf) : Prop :=
  ∀ other, ¬ linkedTo m leaf other.

(** ** Propagation ([syncFileToLinkedLeaves]) *)

(** [openFile] stands for what happens inside the host between the call
    [leaf.openFile(file)] and its return: the host may call back into the
    plugin, so it is given the plugin as it is at the call and hands back
    the plugin as it is at the return. *)
Definition syncFileToLinkedLeaves (w : Workspace)
    (openFile : Leaf → TFile → Plugin → Run unit)
    (s : Plugin) (sourceLeaf : Leaf) (file : option TFile) : Run unit :=
  match file with
  | None => mkRun (Returns tt) s []
  | Some f =>
      let s1 := with_isSyncing true s in
      let body :=
        match linkedLeaves s1 !! sourceLeaf with
        | Some (leaf :: _) =>
            match leaf_view w leaf with
            | Some _ =>
                let r := openFile leaf f s1 in
                mkRun (completion r) (after r) (OpenFile leaf f :: calls r)
            | None => mkRun (Returns tt) s1 []
            end
        | _ => mkRun (Returns tt) s1 []
        end in
      match completion body with
      | OutOfFuel => body
      | c => mkRun c (with_isSyncing false (after body)) (calls body)
      end
  end.

(** The [active-leaf-change] handler registered in [onload]. *)
Definition onActiveLeafChange (w : Workspace)
    (openFile : Leaf → TFile → Plugin → Run unit)
    (s : Plugin) (leaf : option Leaf) : Run unit :=
  if negb (settings_enabled s) || isSyncing s || bool_decide (leaf = None)
  then mkRun (Returns tt) s []
  else
    match leaf with
    | Some l =>
        match fileOfView (leaf_view w l) with
        | Some file => syncFileToLinkedLeaves w openFile s l (Some file)
        | None => mkRun (Returns tt) s []
        end
    | None => mkRun (Returns tt) s []
    end.

(** The host delivers events to a handler one after the other; the first
    one that does not return ends the delivery. *)
Fixpoint raiseAll (handler : Plugin → option Leaf → Run unit)
    (events : list (option Leaf)) (s : Plugin) : Run unit :=
  match events with
  | [] => mkRun (Returns tt) s []
  | ev :: rest =>
      let r := handler s ev in
      match completion r with
      | Returns _ =>
          let r' := raiseAll handler rest (after r) in
          mkRun (completion r') (after r') (calls r ++ calls r')
      | _ => r
      end
  end.

(** [leaf.openFile(file)] as the host runs it: the events it raises
    before returning reach [handler], then it returns or throws. *)
Definition hostOpenFile (w : Workspace) (handler : Plugin → option Leaf → Run unit)
    (leaf : Leaf) (file : TFile) (s : Plugin) : Run unit :=
  let r := raiseAll handler (raisedByOpenFile w leaf file) s in
  match completion r with
  | Returns _ =>
      mkRun (if openFile_throws w leaf file then Throws else Returns tt)
            (after r) (calls r)
  | _ => r
  end.

(** The handler with the host closed over it: every level of nesting of
    handler inside [openFile] inside handler takes one unit of fuel. *)
Fixpoint activeLeafChange (fuel : nat) (w : Workspace) (s : Plugin)
    (leaf : option Leaf) : Run unit :=
  match fuel with
  | 0 => mkRun OutOfFuel s []
  | S n => onActiveLeafChange w (hostOpenFile w (activeLeafChange n w)) s leaf
  end.

(** [openFile] as the host of the later revision runs it, handler
    included. *)
Abbreviation host fuel w := (hostOpenFile w (activeLeafChange fuel w)).

(** One propagation call with the host closed over the handler. *)
Definition propagate (fuel : nat) (w : Workspace) (s : Plugin)
    (sourceLeaf : Leaf) (file : option TFile) : Run unit :=
  syncFileToLinkedLeaves w (hostOpenFile w (activeLeafChange fuel w)) s sourceLeaf file.

(** ** Clean-up ([cleanupClosedLeaves]) *)

Definition keysToDelete (activeLeaves : gset nat) (m : gmap nat (list nat)) : list Leaf :=
  filter (λ leaf, leaf ∉ activeLeaves) (map_to_list m).*1.

Definition cleanupClosedLeaves (w : Workspace) (s : Plugin) : Plugin :=
  let activeLeaves : gset nat := list_to_set (iterateAllLeaves w) in
  with_linkedLeaves
    (foldl (λ m leaf, delete leaf m) (linkedLeaves s)
           (keysToDelete activeLeaves (linkedLeaves s)))
    s.

(** ** The callbacks registered in [onload] *)

(** The body shared by the command and the tab-header menu item. *)
Definition linkAndNotify (w : Workspace)
    (openFile : Leaf → TFile → Plugin → Run unit)
    (s : Plugin) (leaf : Leaf) : Run unit :=
  let r := linkLeafWithPartner w openFile s leaf true in
  match completion r with
  | Returns (Some _) =>
      mkRun (Returns tt) (after r) (calls r ++ [NewNotice "Linked with one pane for sync"])
  | Returns None =>
      mkRun (Returns tt) (after r) (calls r ++ [NewNotice "No pane found or created to link"])
  | Throws => mkRun Throws (after r) (calls r)
  | OutOfFuel => mkRun OutOfFuel (after r) (calls r)
  end.

Definition linkCommand (w : Workspace)
    (openFile : Leaf → TFile → Plugin → Run unit) (s : Plugin) : Run unit :=
  match getLeaf w with
  | None => mkRun (Returns tt) s []
  | Some activeLeaf => linkAndNotify w openFile s activeLeaf
  end.

Inductive Event :=
| CommandLink
| TabMenuLink (leaf : Leaf)
| ActiveLeafChange (leaf : option Leaf)
| LayoutChange.

Definition dispatch (fuel : nat) (w : Workspace) (s : Plugin) (ev : Event) : Run unit :=
  match ev with
  | CommandLink => linkCommand w (host fuel w) s
  | TabMenuLink leaf => linkAndNotify w (host fuel w) s leaf
  | ActiveLeafChange leaf => activeLeafChange fuel w s leaf
  | LayoutChange => mkRun (Returns tt) (cleanupClosedLeaves w s) []
  end.

(** A session: each event arrives with the workspace as it is then. *)
Definition runTrace (fuel : nat) (s : Plugin) (trace : list (Workspace * Event)) : Plugin :=
  foldl (λ s '(w, ev), after (dispatch fuel w s ev)) s trace.

(** A host callback that hands the plugin back as it was given. *)
Definition restoring (openFile : Leaf → TFile → Plugin → Run unit) : Prop :=
  ∀ leaf file s, after (openFile leaf file s) = s.


(** ** The earlier revision (src/src/main.ts)

    It differs from the later one in three places: the split is made under
    [try]/[catch], propagation is driven by [file-open] and takes the
    active leaf as its source, and no indicator is drawn.  The search, the
    statements that record the pair, [syncFileToLinkedLeaves] and
    [cleanupClosedLeaves] are the same statements in both. *)
Module MainTs.

(** The split under [try]: an exception, of the split or of anything
    that runs before [openFile] returns, is logged and [partner] stays
    [null]; [partner = newLeaf] comes after [newLeaf.openFile(activeFile)]. *)
Definition createPartner (w : Workspace)
    (openFile : Leaf → TFile → Plugin → Run unit)
    (s : Plugin) (activeLeaf : Leaf) (activeFile : TFile) : Run (option Leaf) :=
  if createLeafBySplit_throws w activeLeaf
  then mkRun (Returns None) s [CreateLeafBySplit activeLeaf]
  else
    match createLeafBySplit w activeLeaf with
    | Some newLeaf =>
        let r := openFile newLeaf activeFile s in
        mkRun match completion r with
              | Returns _ => Returns (Some newLeaf)
              | Throws => Returns None
              | OutOfFuel => OutOfFuel
              end
              (after r)
              (CreateLeafBySplit activeLeaf :: OpenFile newLeaf activeFile :: calls r)
    | None => mkRun (Returns None) s [CreateLeafBySplit activeLeaf]
    end.

Definition resolvePartner (w : Workspace)
    (openFile : Leaf → TFile → Plugin → Run unit)
    (s : Plugin) (activeLeaf : Leaf) (activeFile : TFile)
    (createIfNone : bool) : Run (option Leaf) :=
  match findPartner w activeLeaf (path activeFile) with
  | Some found => mkRun (Returns (Some found)) s []
  | None =>
      if createIfNone then createPartner w openFile s activeLeaf activeFile
      else mkRun (Returns None) s []
  end.

Definition linkLeafWithPartner (w : Workspace)
    (openFile : Leaf → TFile → Plugin → Run unit)
    (s : Plugin) (activeLeaf : Leaf) (createIfNone : bool) : Run (option Leaf) :=
  match fileOfView (leaf_view w activeLeaf) with
  | None => mkRun (Returns None) s []
  | Some activeFile =>
      let r := resolvePartner w openFile s activeLeaf activeFile createIfNone in
      match completion r with
      | Returns (Some partner) =>
          mkRun (Returns (Some partner))
                (with_linkedLeaves
                   (recordPair activeLeaf partner (linkedLeaves (after r))) (after r))
                (calls r)
      | _ => r
      end
  end.

(** The [file-open] handler: the source is [workspace.activeLeaf]. *)
Definition onFileOpen (w : Workspace)
    (openFile : Leaf → TFile → Plugin → Run unit)
    (s : Plugin) (file : option TFile) : Run unit :=
  if negb (settings_enabled s) || isSyncing s || bool_decide (file = None)
  then mkRun (Returns tt) s []
  else
    match getLeaf w with
    | Some leaf =>
        match leaf_view w leaf with
        | Some _ => syncFileToLinkedLeaves w openFile s leaf file
        | None => mkRun (Returns tt) s []
        end
    | None => mkRun (Returns tt) s []
    end.

End MainTs.

(** ** Example workspaces

    Three panes [1], [2], [3] of the main area under the root split [0],
    all showing [notes.md], and a sidebar pane [7] showing it too. *)
Module Scenario.

Definition notes : TFile := {| path := "notes.md" |}.
Definition draft : TFile := {| path := "draft.md" |}.

Definition mainArea (order : list Leaf) : Workspace :=
  {| iterateAllLeaves := order;
     getLeaf := Some 1;
     leaf_view := λ _, Some (FileView (Some notes));
     parents := λ leaf, if decide (leaf = 7) then [20; 21] else [10; 0];
     rootSplit := Some 0;
     createLeafBySplit := λ _, Some 4;
     createLeafBySplit_throws := λ _, false;
     openFile_throws := λ _ _, false;
     raisedByOpenFile := λ leaf _, [Some leaf] |}.

(** The same panes, with pane [1] showing [draft.md]. *)
Definition afterNavigation (order : list Leaf) : Workspace :=
  {| iterateAllLeaves := order;
     getLeaf := Some 1;
     leaf_view := λ leaf,
       if decide (leaf = 1) then Some (FileView (Some draft))
       else Some (FileView (Some notes));
     parents := parents (mainArea order);
     rootSplit := Some 0;
     createLeafBySplit := λ _, Some 4;
     createLeafBySplit_throws := λ _, false;
     openFile_throws := λ _ _, false;
     raisedByOpenFile := λ leaf _, [Some leaf] |}.

(** A workspace whose panes other than [1] have lost their view, and whose
    [openFile] throws. *)
Definition broken : Workspace :=
  {| iterateAllLeaves := [1; 2];
     getLeaf := Some 1;
     leaf_view := λ leaf,
       if decide (leaf = 1) then Some (FileView (Some notes)) else None;
     parents := λ _, [10; 0];
     rootSplit := Some 0;
     createLeafBySplit := λ _, None;
     createLeafBySplit_throws := λ _, false;
     openFile_throws := λ _ _, true;
     raisedByOpenFile := λ _ _, [] |}.

Definition throwing : Workspace :=
  {| iterateAllLeaves := [1; 2];
     getLeaf := Some 1;
     leaf_view := λ _, Some (FileView (Some notes));
     parents := λ _, [10; 0];
     rootSplit := Some 0;
     createLeafBySplit := λ _, None;
     createLeafBySplit_throws := λ _, false;
     openFile_throws := λ _ _, true;
     raisedByOpenFile := λ leaf _, [Some leaf; Some 1] |}.

(** [1] linked with [2]: the first pane found in the order [1; 2; 3]. *)
Definition linked12 : Plugin :=
  after (linkLeafWithPartner (mainArea [1; 2; 3]) (host 2 (mainArea [1; 2; 3]))
           (initial true) 1 true).

(** Then [1] linked again, when the host lists [3] before [2]. *)
Definition relinked13 : Plugin :=
  after (linkLeafWithPartner (mainArea [1; 3; 2]) (host 2 (mainArea [1; 3; 2]))
           linked12 1 true).

End Scenario.

(** ** Example workspaces in which the source is split *)
Module Split.

(** Pane [1] has moved on to [draft.md], which no other pane shows, so a
    link of [1] splits it into the new leaf [4].  While [4] opens the file
    the host raises [active-leaf-change] for pane [2]; loading a file into
    pane [1] throws. *)
Definition noisy : Workspace :=
  {| iterateAllLeaves := [1; 2; 3];
     getLeaf := Some 1;
     leaf_view := λ leaf,
       if decide (leaf = 1) then Some (FileView (Some Scenario.draft))
       else Some (FileView (Some Scenario.notes));
     parents := λ _, [10; 0];
     rootSplit := Some 0;
     createLeafBySplit := λ _, Some 4;
     createLeafBySplit_throws := λ _, false;
     openFile_throws := λ leaf _, bool_decide (leaf = 1);
     raisedByOpenFile := λ leaf _, if decide (leaf = 4) then [Some 2] else [] |}.


(** The source [7] sits in a sidebar and shows [draft.md], which no pane
    of the main area shows; its split [8] sits in the same sidebar. *)
Definition sidebarSource : Workspace :=
  {| iterateAllLeaves := [1; 7];
     getLeaf := Some 7;
     leaf_view := λ leaf,
       if decide (leaf = 1) then Some (FileView (Some Scenario.notes))
       else Some (FileView (Some Scenario.draft));
     parents := λ leaf, if decide (leaf = 1) then [10; 0] else [20; 21];
     rootSplit := Some 0;
     createLeafBySplit := λ _, Some 8;
     createLeafBySplit_throws := λ _, false;
     openFile_throws := λ _ _, false;
     raisedByOpenFile := λ _ _, [] |}.

(** Panes [1] and [2] both show [draft.md]: the workspace once pane [2]
    has loaded what pane [1] propagated. *)
Definition afterLoad : Workspace :=
  {| iterateAllLeaves := [1; 2; 3];
     getLeaf := Some 2;
     leaf_view := λ leaf,
       if decide (leaf = 3) then Some (FileView (Some Scenario.notes))
       else Some (FileView (Some Scenario.draft));
     parents := λ _, [10; 0];
     rootSplit := Some 0;
     createLeafBySplit := λ _, Some 4;
     createLeafBySplit_throws := λ _, false;
     openFile_throws := λ _ _, false;
     raisedByOpenFile := λ leaf _, [Some leaf] |}.

End Split.

(** ** Indicators ([updateLeafVisualIndicators], part_000)

    Of the host's document the plugin touches the [.sync-indicator]
    elements of the tab headers only: the document is the number of such
    elements in the header of each leaf.  [tabHeaderEl] tells which leaves
    have a header element. *)
Module Indicators.

Definition count (dom : gmap nat nat) (leaf : Leaf) : nat :=
  default 0 (dom !! leaf).

(** The first callback: [querySelector] finds one indicator of the header,
    if there is any, and [remove()] takes that one out. *)
Definition removeIndicator (tabHeaderEl : Leaf → bool) (dom : gmap nat nat)
    (leaf : Leaf) : gmap nat nat :=
  if tabHeaderEl leaf then
    match count dom leaf with
    | 0 => dom
    | S k => <[leaf := k]> dom
    end
  else dom.

(** The second callback: [createDiv('sync-indicator')] in the header of a
    leaf whose set is not empty. *)
Definition addIndicator (tabHeaderEl : Leaf → bool) (dom : gmap nat nat)
    (entry : nat * list nat) : gmap nat nat :=
  match entry.2 with
  | [] => dom
  | _ :: _ =>
      if tabHeaderEl entry.1 then <[entry.1 := S (count dom entry.1)]> dom else dom
  end.

Definition updateLeafVisualIndicators (tabHeaderEl : Leaf → bool) (w : Workspace)
    (s : Plugin) (dom : gmap nat nat) : gmap nat nat :=
  let cleared := foldl (removeIndicator tabHeaderEl) dom (iterateAllLeaves w) in
  foldl (addIndicator tabHeaderEl) cleared (map_to_list (linkedLeaves s)).

(** The [layout-change] handler of part_000: [cleanupClosedLeaves()], which
    ends with a refresh of its own, then [updateLeafVisualIndicators()]. *)
Definition onLayoutChange (tabHeaderEl : Leaf → bool) (w : Workspace)
    (s : Plugin) (dom : gmap nat nat) : Plugin * gmap nat nat :=
  let s' := cleanupClosedLeaves w s in
  (s', updateLeafVisualIndicators tabHeaderEl w s'
         (updateLeafVisualIndicators tabHeaderEl w s' dom)).

(** How often the host lists a leaf. *)
Definition occurrences (leaf : Leaf) (leaves : list Leaf) : nat :=
  length (filter (λ l, l = leaf) leaves).

End Indicators.

(** ** [loadSettings]

    [Object.assign({}, DEFAULT_SETTINGS, await this.loadData())]: the keys
    of the stored object override the defaults; [loadData()] gives [null]
    when nothing is stored.  [DEFAULT_SETTINGS] is declared in
    [./settings], which is not among the sources, and is a parameter. *)
Section Settings.

Context {V : Type}.
Variable DEFAULT_SETTINGS : gmap string V.

Definition loadSettings (data : option (gmap string V)) : gmap string V :=
  default ∅ data ∪ DEFAULT_SETTINGS.

End Settings.

(** ** The search, said at once *)

(** The leaves the callback of [iterateAllLeaves] would take as partner. *)
Definition eligible (w : Workspace) (root : Item) (activeLeaf : Leaf)
    (activeFilePath : string) (leaf : Leaf) : bool :=
  bool_decide (root ∈ parents w leaf) && bool_decide (leaf ≠ activeLeaf) &&
  match fileOfView (leaf_view w leaf) with
  | Some leafFile => bool_decide (path leafFile = activeFilePath)
  | None => false
  end.

(** ** The [file-open] handler of the earlier revision, with its host *)
Module MainTsHost.

(** The [file-open] events the host raises before [leaf.openFile(file)]
    returns, delivered one after the other. *)
Fixpoint raiseFileOpen (handler : Plugin → option TFile → Run unit)
    (events : list (option TFile)) (s : Plugin) : Run unit :=
  match events with
  | [] => mkRun (Returns tt) s []
  | ev :: rest =>
      let r := handler s ev in
      match completion r with
      | Returns _ =>
          let r' := raiseFileOpen handler rest (after r) in
          mkRun (completion r') (after r') (calls r ++ calls r')
      | _ => r
      end
  end.

Definition hostOpenFile (w : Workspace) (raised : Leaf → TFile → list (option TFile))
    (handler : Plugin → option TFile → Run unit)
    (leaf : Leaf) (file : TFile) (s : Plugin) : Run unit :=
  let r := raiseFileOpen handler (raised leaf file) s in
  match completion r with
  | Returns _ =>
      mkRun (if openFile_throws w leaf file then Throws else Returns tt)
            (after r) (calls r)
  | _ => r
  end.

Fixpoint fileOpen (fuel : nat) (w : Workspace)
    (raised : Leaf → TFile → list (option TFile))
    (s : Plugin) (file : option TFile) : Run unit :=
  match fuel with
  | 0 => mkRun OutOfFuel s []
  | S n => MainTs.onFileOpen w (hostOpenFile w raised (fileOpen n w raised)) s file
  end.

End MainTsHost.

(** ** The registry after a link *)

Lemma ensureSet_lookup leaf (m : gmap nat (list nat)) k :
  ensureSet leaf m !! k =
    if decide (k = leaf) then Some (default [] (m !! leaf)) else m !! k.
Proof.
  unfold ensureSet. destruct (decide (is_Some (m !! leaf))) as [[set Hset]|Hnone].
  - case_decide; subst; by rewrite ?Hset.
  - apply eq_None_not_Some in Hnone. rewrite lookup_insert.
    repeat case_decide; subst; try done. by rewrite Hnone.
Qed.

(** After the pair is recorded, the partner's set is exactly the source,
    the source's set is exactly the partner, every other set is as before. *)
Lemma recordPair_lookup a p (m : gmap nat (list nat)) k :
  recordPair a p m !! k =
    if decide (k = p) then Some [a]
    else if decide (k = a) then Some [p]
    else m !! k.
Proof.
  unfold recordPair.
  rewrite !lookup_alter, !ensureSet_lookup.
  repeat (case_decide; simplify_eq/=); try done.
  all: unfold set_add, set_clear; repeat case_decide; try done; set_solver.
Qed.

Lemma recordPair_links a p (m : gmap nat (list nat)) :
  a ≠ p → linkedTo (recordPair a p m) a p ∧ linkedTo (recordPair a p m) p a.
Proof.
  intros Hne. split.
  - exists [p]. rewrite recordPair_lookup. repeat case_decide; try done. set_solver.
  - exists [a]. rewrite recordPair_lookup. repeat case_decide; try done. set_solver.
Qed.

Lemma resolvePartner_after w openFile s activeLeaf activeFile createIfNone :
  restoring openFile →
  after (resolvePartner w openFile s activeLeaf activeFile createIfNone) = s.
Proof.
  intros Hhost. unfold resolvePartner.
  destruct (findPartner _ _ _); [done|]. destruct createIfNone; [|done].
  unfold createPartner. destruct (createLeafBySplit_throws _ _); [done|].
  destruct (createLeafBySplit w activeLeaf) as [newLeaf|]; [|done].
  apply Hhost.
Qed.

(** What a link operation does to the registry, when the host hands the
    plugin back as it was. *)
Lemma linkLeafWithPartner_registry w openFile s activeLeaf createIfNone :
  restoring openFile →
  let r := linkLeafWithPartner w openFile s activeLeaf createIfNone in
  match completion r with
  | Returns (Some p) =>
      after r = with_linkedLeaves (recordPair activeLeaf p (linkedLeaves s)) s
  | _ => after r = s
  end.
Proof.
  intros Hhost. unfold linkLeafWithPartner.
  destruct (fileOfView _) as [activeFile|]; [|done].
  pose proof (resolvePartner_after w openFile s activeLeaf activeFile createIfNone Hhost)
    as Hafter.
  destruct (resolvePartner _ _ _ _ _ _) as [[[p|]| |] s' log];
    cbn in *; by subst s'.
Qed.

(** ** The propagation guard *)

Lemma with_isSyncing_same s : with_isSyncing (isSyncing s) s = s.
Proof. by destruct s. Qed.

(** An event that arrives while the flag is set is dropped. *)
Lemma activeLeafChange_guarded n w s leaf :
  isSyncing s = true →
  activeLeafChange (S n) w s leaf = mkRun (Returns tt) s [].
Proof.
  intros Hflag. simpl. unfold onActiveLeafChange.
  by rewrite Hflag, orb_true_r.
Qed.

Lemma raiseAll_guarded n w events s :
  isSyncing s = true →
  raiseAll (activeLeafChange (S n) w) events s = mkRun (Returns tt) s [].
Proof.
  intros Hflag. induction events as [|ev events IH]; [done|].
  cbn [raiseAll]. rewrite activeLeafChange_guarded by done.
  cbn [completion after calls]. by rewrite IH.
Qed.

Lemma hostOpenFile_guarded n w leaf file s :
  isSyncing s = true →
  hostOpenFile w (activeLeafChange (S n) w) leaf file s =
    mkRun (if openFile_throws w leaf file then Throws else Returns tt) s [].
Proof.
  intros Hflag. unfold hostOpenFile. by rewrite raiseAll_guarded.
Qed.

(** With one unit of fuel for the nested handlers the call is this. *)
Lemma propagate_eq n w s sourceLeaf f :
  propagate (S n) w s sourceLeaf (Some f) =
    match linkedLeaves s !! sourceLeaf with
    | Some (leaf :: _) =>
        match leaf_view w leaf with
        | Some _ =>
            mkRun (if openFile_throws w leaf f then Throws else Returns tt)
                  (with_isSyncing false s) [OpenFile leaf f]
        | None => mkRun (Returns tt) (with_isSyncing false s) []
        end
    | _ => mkRun (Returns tt) (with_isSyncing false s) []
    end.
Proof.
  unfold propagate, syncFileToLinkedLeaves. cbn [linkedLeaves with_isSyncing].
  destruct (linkedLeaves s !! sourceLeaf) as [[|leaf rest]|]; try done.
  destruct (leaf_view w leaf); [|done].
  rewrite hostOpenFile_guarded by done. cbn [completion after calls].
  by destruct (openFile_throws w leaf f).
Qed.

Lemma activeLeafChange_eq n w s leaf :
  activeLeafChange (S (S n)) w s leaf =
    if negb (settings_enabled s) || isSyncing s || bool_decide (leaf = None)
    then mkRun (Returns tt) s []
    else
      match leaf with
      | Some l =>
          match fileOfView (leaf_view w l) with
          | Some file => propagate (S n) w s l (Some file)
          | None => mkRun (Returns tt) s []
          end
      | None => mkRun (Returns tt) s []
      end.
Proof. done. Qed.

(** The handler never touches the registry or the settings, and with
    fuel for one nested level it leaves the flag as it found it. *)
Lemma activeLeafChange_after n w s leaf :
  after (activeLeafChange (S (S n)) w s leaf) = s.
Proof.
  rewrite activeLeafChange_eq.
  destruct (settings_enabled s) eqn:Hen, (isSyncing s) eqn:Hsync, leaf as [l|];
    cbn [negb orb]; try done.
  rewrite bool_decide_eq_false_2 by done.
  destruct (fileOfView _); [|done].
  rewrite propagate_eq.
  assert (with_isSyncing false s = s) as Hs
    by (rewrite <- Hsync; apply with_isSyncing_same).
  destruct (linkedLeaves s !! l) as [[|leaf rest]|]; try done.
  by destruct (leaf_view w leaf).
Qed.

Lemma raiseAll_after handler events s :
  (∀ s' ev, after (handler s' ev) = s') →
  after (raiseAll handler events s) = s.
Proof.
  intros Hhandler. revert s.
  induction events as [|ev events IH]; intros s; [done|]. cbn [raiseAll].
  pose proof (Hhandler s ev) as Hev.
  destruct (completion (handler s ev)); [|done..].
  cbn [after]. by rewrite Hev, IH.
Qed.

(** The host of the later revision hands the plugin back as it was: all
    it runs in between is the navigation handler. *)
Lemma host_restoring n w : restoring (host (S (S n)) w).
Proof.
  intros leaf file s. unfold hostOpenFile.
  pose proof (raiseAll_after (activeLeafChange (S (S n)) w)
                (raisedByOpenFile w leaf file) s
                (λ s' ev, activeLeafChange_after n w s' ev)) as Hafter.
  by destruct (completion (raiseAll _ _ _)).
Qed.

(** ** Clean-up *)

Lemma foldl_delete_lookup (keys : list nat) (m : gmap nat (list nat)) k :
  foldl (λ m leaf, delete leaf m) m keys !! k =
    if decide (k ∈ keys) then None else m !! k.
Proof.
  revert m. induction keys as [|key keys IH]; intros m; cbn [foldl].
  - case_decide; [set_solver|done].
  - rewrite IH, lookup_delete.
    destruct (decide (k ∈ key :: keys)) as [Hin|Hnin].
    + apply elem_of_cons in Hin as [->|Hin].
      * destruct (decide (key ∈ keys)); [done|]. by rewrite decide_True.
      * by rewrite decide_True.
    + apply not_elem_of_cons in Hnin as [Hne Hnin].
      rewrite decide_False by done. by rewrite decide_False.
Qed.

Lemma elem_of_keysToDelete (activeLeaves : gset nat) (m : gmap nat (list nat)) k :
  k ∈ keysToDelete activeLeaves m ↔ (k ∉ activeLeaves) ∧ is_Some (m !! k).
Proof.
  unfold keysToDelete. rewrite list_elem_of_filter, list_elem_of_fmap.
  split.
  - intros [Hk [[k' set] [-> Hin]]]. split; [done|].
    apply elem_of_map_to_list in Hin. by exists set.
  - intros [Hk [set Hset]]. split; [done|].
    exists (k, set). split; [done|]. by apply elem_of_map_to_list.
Qed.

(** The registry after the clean-up, key by key. *)
Lemma cleanup_lookup w s k :
  linkedLeaves (cleanupClosedLeaves w s) !! k =
    if decide (k ∈ iterateAllLeaves w) then linkedLeaves s !! k else None.
Proof.
  unfold cleanupClosedLeaves. cbn [linkedLeaves with_linkedLeaves].
  rewrite foldl_delete_lookup.
  destruct (decide (k ∈ keysToDelete _ _)) as [Hin|Hnin].
  - apply elem_of_keysToDelete in Hin as [Hk _].
    rewrite elem_of_list_to_set in Hk. by case_decide.
  - case_decide as Hlive; [done|].
    destruct (linkedLeaves s !! k) as [set|] eqn:Hset; [|done].
    exfalso. apply Hnin, elem_of_keysToDelete. split; [|by eexists].
    by rewrite elem_of_list_to_set.
Qed.

Lemma cleanup_removes_closed w s leaf :
  leaf ∉ iterateAllLeaves w → linkedLeaves (cleanupClosedLeaves w s) !! leaf = None.
Proof. intros Hclosed. rewrite cleanup_lookup. by case_decide. Qed.

(** ** Sessions *)

Lemma exclusive_recordPair a p m : exclusive m → exclusive (recordPair a p m).
Proof.
  intros Hm leaf set. rewrite recordPair_lookup.
  repeat case_decide; try (intros [= <-]; simpl; lia). apply Hm.
Qed.

Lemma exclusive_link w openFile s activeLeaf createIfNone :
  restoring openFile →
  exclusive (linkedLeaves s) →
  exclusive (linkedLeaves
               (after (linkLeafWithPartner w openFile s activeLeaf createIfNone))).
Proof.
  intros Hhost Hs.
  pose proof (linkLeafWithPartner_registry w openFile s activeLeaf createIfNone Hhost)
    as Hr.
  cbv zeta in Hr.
  destruct (completion _) as [[p|]| |]; rewrite Hr; try done.
  by apply exclusive_recordPair.
Qed.

Lemma linkAndNotify_after w openFile s leaf :
  after (linkAndNotify w openFile s leaf)
    = after (linkLeafWithPartner w openFile s leaf true).
Proof.
  unfold linkAndNotify. by destruct (completion _) as [[?|]| |].
Qed.

Lemma exclusive_cleanup w s :
  exclusive (linkedLeaves s) → exclusive (linkedLeaves (cleanupClosedLeaves w s)).
Proof.
  intros Hs leaf set. rewrite cleanup_lookup. case_decide; [apply Hs|done].
Qed.

(** No callback ever leaves a set with two members in the registry. *)
Lemma exclusive_dispatch n w s ev :
  exclusive (linkedLeaves s) →
  exclusive (linkedLeaves (after (dispatch (S (S n)) w s ev))).
Proof.
  intros Hs. destruct ev as [|leaf|leaf|]; cbn [dispatch after].
  - unfold linkCommand. destruct (getLeaf w); [|done].
    rewrite linkAndNotify_after. by apply exclusive_link; [apply host_restoring|].
  - rewrite linkAndNotify_after. by apply exclusive_link; [apply host_restoring|].
  - by rewrite activeLeafChange_after.
  - by apply exclusive_cleanup.
Qed.

Lemma runTrace_snoc fuel s trace w ev :
  runTrace fuel s (trace ++ [(w, ev)]) =
    after (dispatch fuel w (runTrace fuel s trace) ev).
Proof. unfold runTrace. by rewrite foldl_snoc. Qed.

Lemma exclusive_runTrace n enabled trace :
  exclusive (linkedLeaves (runTrace (S (S n)) (initial enabled) trace)).
Proof.
  induction trace as [|[w ev] trace IH] using rev_ind.
  - intros leaf set. cbn. by rewrite lookup_empty.
  - rewrite runTrace_snoc. by apply exclusive_dispatch.
Qed.

(** Between two callbacks the flag is down. *)
Lemma isSyncing_dispatch n w s ev :
  isSyncing s = false → isSyncing (after (dispatch (S (S n)) w s ev)) = false.
Proof.
  intros Hs. destruct ev as [|leaf|leaf|]; cbn [dispatch after].
  - unfold linkCommand. destruct (getLeaf w) as [activeLeaf|]; [|done].
    rewrite linkAndNotify_after.
    pose proof (linkLeafWithPartner_registry w _ s activeLeaf true (host_restoring n w))
      as Hr.
    cbv zeta in Hr. by destruct (completion _) as [[p|]| |]; rewrite Hr.
  - rewrite linkAndNotify_after.
    pose proof (linkLeafWithPartner_registry w _ s leaf true (host_restoring n w)) as Hr.
    cbv zeta in Hr. by destruct (completion _) as [[p|]| |]; rewrite Hr.
  - by rewrite activeLeafChange_after.
  - done.
Qed.

Lemma isSyncing_runTrace n enabled trace :
  isSyncing (runTrace (S (S n)) (initial enabled) trace) = false.
Proof.
  induction trace as [|[w ev] trace IH] using rev_ind; [done|].
  rewrite runTrace_snoc. by apply isSyncing_dispatch.
Qed.

(** ** Partner search *)

Lemma visitLeaf_outside w root activeLeaf activeFilePath partner leaf outside :
  isInRootSplit w root outside = false →
  partner ≠ Some outside →
  visitLeaf w root activeLeaf activeFilePath partner leaf ≠ Some outside.
Proof.
  intros Hout Hpartner. unfold visitLeaf.
  destruct (isInRootSplit w root leaf) eqn:Hleaf; cbn [negb]; [|done].
  destruct (_ && _); [|done].
  destruct (fileOfView _) as [leafFile|]; [|done].
  case_bool_decide; [|done].
  intros [= ->]. congruence.
Qed.

Lemma foldl_visitLeaf_outside w root activeLeaf activeFilePath leaves partner outside :
  isInRootSplit w root outside = false →
  partner ≠ Some outside →
  foldl (visitLeaf w root activeLeaf activeFilePath) partner leaves ≠ Some outside.
Proof.
  intros Hout. revert partner.
  induction leaves as [|leaf leaves IH]; intros partner Hpartner; [done|].
  cbn [foldl]. apply IH. by apply visitLeaf_outside.
Qed.

Lemma findPartner_outside w activeLeaf activeFilePath outside :
  (∀ root, rootSplit w = Some root → isInRootSplit w root outside = false) →
  findPartner w activeLeaf activeFilePath ≠ Some outside.
Proof.
  intros Hout. unfold findPartner.
  destruct (rootSplit w) as [root|]; [|done].
  apply foldl_visitLeaf_outside; [by apply Hout|done].
Qed.

Lemma resolvePartner_outside w openFile s activeLeaf activeFile createIfNone outside :
  (∀ root, rootSplit w = Some root → isInRootSplit w root outside = false) →
  createLeafBySplit w activeLeaf ≠ Some outside →
  completion (resolvePartner w openFile s activeLeaf activeFile createIfNone)
    ≠ Returns (Some outside).
Proof.
  intros Hout Hnew. unfold resolvePartner.
  pose proof (findPartner_outside w activeLeaf (path activeFile) outside Hout) as Hfound.
  destruct (findPartner _ _ _) as [found|]; [cbn; congruence|].
  destruct createIfNone; [|done]. unfold createPartner.
  destruct (createLeafBySplit_throws _ _); [done|].
  destruct (createLeafBySplit w activeLeaf) as [newLeaf|]; [|done].
  cbn. destruct (completion (openFile _ _ _)); congruence.
Qed.

(** ** The earlier revision *)

(** With the same host behaviour inside [openFile], the earlier revision
    is the later one with the exception caught. *)
Lemma mainTs_link_eq w openFile s activeLeaf createIfNone :
  MainTs.linkLeafWithPartner w openFile s activeLeaf createIfNone =
    match completion (linkLeafWithPartner w openFile s activeLeaf createIfNone) with
    | Throws =>
        mkRun (Returns None)
              (after (linkLeafWithPartner w openFile s activeLeaf createIfNone))
              (calls (linkLeafWithPartner w openFile s activeLeaf createIfNone))
    | _ => linkLeafWithPartner w openFile s activeLeaf createIfNone
    end.
Proof.
  unfold MainTs.linkLeafWithPartner, linkLeafWithPartner.
  destruct (fileOfView _) as [activeFile|]; [|done].
  unfold MainTs.resolvePartner, resolvePartner, MainTs.createPartner, createPartner.
  destruct (findPartner _ _ _), createIfNone; try done.
  destruct (createLeafBySplit_throws _ _); [done|].
  destruct (createLeafBySplit w activeLeaf) as [newLeaf|]; [|done].
  cbn. by destruct (completion (openFile _ _ _)).
Qed.

Lemma mainTs_link_registry w openFile s activeLeaf createIfNone :
  restoring openFile →
  let r := MainTs.linkLeafWithPartner w openFile s activeLeaf createIfNone in
  match completion r with
  | Returns (Some p) =>
      after r = with_linkedLeaves (recordPair activeLeaf p (linkedLeaves s)) s
  | _ => after r = s
  end.
Proof.
  intros Hhost. cbv zeta. rewrite mainTs_link_eq.
  pose proof (linkLeafWithPartner_registry w openFile s activeLeaf createIfNone Hhost)
    as Hr.
  cbv zeta in Hr.
  destruct (completion (linkLeafWithPartner w openFile s activeLeaf createIfNone))
    as [[p|]| |] eqn:Hc; cbn [completion after]; rewrite ?Hc; done.
Qed.

(** The [file-open] handler is behind the same two gates. *)
Lemma mainTs_onFileOpen_gated w openFile s file :
  settings_enabled s = false ∨ isSyncing s = true →
  MainTs.onFileOpen w openFile s file = mkRun (Returns tt) s [].
Proof.
  intros [Hoff|Hflag]; unfold MainTs.onFileOpen.
  - by rewrite Hoff.
  - by rewrite Hflag, orb_true_r.
Qed.

(** ** Symmetry *)

(** Pairing two panes that have no link keeps the relation symmetric. *)
Lemma symmetric_recordPair_unlinked a p (m : gmap nat (list nat)) :
  a ≠ p → symmetric m → unlinked m a → unlinked m p →
  symmetric (recordPair a p m).
Proof.
  intros Hne Hsym Ha Hp x y [set [Hset Hin]].
  rewrite recordPair_lookup in Hset.
  destruct (decide (x = p)) as [->|Hxp].
  { injection Hset as <-. apply list_elem_of_singleton in Hin as ->.
    by apply recordPair_links. }
  destruct (decide (x = a)) as [->|Hxa].
  { injection Hset as <-. apply list_elem_of_singleton in Hin as ->.
    by apply recordPair_links. }
  destruct (Hsym x y) as [set' [Hset' Hin']]; [by exists set|].
  exists set'. split; [|done].
  rewrite recordPair_lookup.
  destruct (decide (y = p)) as [->|_]; [by destruct (Hp x); exists set'|].
  destruct (decide (y = a)) as [->|_]; [by destruct (Ha x); exists set'|].
  done.
Qed.

Lemma symmetric_empty : symmetric ∅.
Proof. intros a b [set [Hset _]]. by rewrite lookup_empty in Hset. Qed.

Lemma unlinked_empty leaf : unlinked ∅ leaf.
Proof. intros other [set [Hset _]]. by rewrite lookup_empty in Hset. Qed.

(** ** The claims *)

(** C1 (the code departs from it).  The claim: after any sequence of link
    operations the relation is symmetric and every linked set has at most
    one member.  The sets never grow beyond one member ([exclusive_runTrace]),
    but a pane that is linked again leaves its former partner pointing at it:
    with 1 linked to 2 and then 1 linked to 3, the registry holds 1 ↦ {3},
    3 ↦ {1} and still 2 ↦ {1}, so it is not symmetric; the earlier
    revision ends in the same registry. *)
Theorem relink_breaks_symmetry :
  symmetric (linkedLeaves Scenario.linked12) ∧
  linkedLeaves Scenario.relinked13 !! 1 = Some [3] ∧
  linkedLeaves Scenario.relinked13 !! 3 = Some [1] ∧
  linkedLeaves Scenario.relinked13 !! 2 = Some [1] ∧
  exclusive (linkedLeaves Scenario.relinked13) ∧
  ¬ symmetric (linkedLeaves Scenario.relinked13) ∧
  runTrace 2 (initial true)
    [(Scenario.mainArea [1; 2; 3], TabMenuLink 1);
     (Scenario.mainArea [1; 3; 2], TabMenuLink 1)] = Scenario.relinked13 ∧
  (∀ openFile,
     after (MainTs.linkLeafWithPartner (Scenario.mainArea [1; 3; 2]) openFile
              (after (MainTs.linkLeafWithPartner (Scenario.mainArea [1; 2; 3]) openFile
                        (initial true) 1 true)) 1 true)
       = Scenario.relinked13).
Proof.
  assert (linkedLeaves Scenario.linked12 = recordPair 1 2 ∅) as H12 by reflexivity.
  assert (linkedLeaves Scenario.relinked13 = recordPair 1 3 (recordPair 1 2 ∅))
    as H13 by reflexivity.
  split; [|split; [|split; [|split; [|split; [|split; [|split;
    [reflexivity|intros openFile; reflexivity]]]]]]].
  - rewrite H12. apply symmetric_recordPair_unlinked;
      [done|apply symmetric_empty|apply unlinked_empty..].
  - by rewrite H13, recordPair_lookup.
  - by rewrite H13, recordPair_lookup.
  - by rewrite H13, !recordPair_lookup.
  - rewrite H13. apply exclusive_recordPair, exclusive_recordPair.
    intros leaf set. by rewrite lookup_empty.
  - intros Hsym. destruct (Hsym 2 1) as [set [Hset Hin]].
    + exists [1]. split; [by rewrite H13, !recordPair_lookup|].
      by apply list_elem_of_singleton.
    + rewrite H13, recordPair_lookup in Hset. simpl in Hset.
      injection Hset as <-. by apply list_elem_of_singleton in Hin.
Qed.

(** The stale entry does not depend on the example: whenever [p2] points at
    [p1] and [p1] is paired with a third pane, [p2] keeps pointing at [p1]. *)
Lemma recordPair_keeps_former_partner (m : gmap nat (list nat)) p1 p2 p3 set :
  m !! p2 = Some set → p2 ≠ p1 → p2 ≠ p3 →
  recordPair p1 p3 m !! p2 = Some set.
Proof.
  intros Hset Hne1 Hne3. rewrite recordPair_lookup. by rewrite !decide_False.
Qed.

(** C2 (the code departs from it).  The claim: once P1, linked to P2, is
    linked to P3, P2 has no partner and is not marked as linked.  On the
    code the link of 1 with 3 succeeds and 1 and 3 point at each other, but
    2 still has 1 as its partner and is still marked, in both revisions. *)
Theorem relink_keeps_former_partner :
  getPartner (linkedLeaves Scenario.linked12) 1 = Some 2 ∧
  getPartner (linkedLeaves Scenario.linked12) 2 = Some 1 ∧
  (∀ openFile,
     completion (linkLeafWithPartner (Scenario.mainArea [1; 3; 2]) openFile
                   Scenario.linked12 1 true)
       = Returns (Some 3)) ∧
  getPartner (linkedLeaves Scenario.relinked13) 1 = Some 3 ∧
  getPartner (linkedLeaves Scenario.relinked13) 3 = Some 1 ∧
  getPartner (linkedLeaves Scenario.relinked13) 2 = Some 1 ∧
  isMarkedLinked (linkedLeaves Scenario.relinked13) 2 = true ∧
  (∀ openFile,
     MainTs.linkLeafWithPartner (Scenario.mainArea [1; 3; 2]) openFile
       Scenario.linked12 1 true
     = linkLeafWithPartner (Scenario.mainArea [1; 3; 2]) openFile
         Scenario.linked12 1 true).
Proof.
  split; [reflexivity|]. split; [reflexivity|]. split; [intros; reflexivity|].
  repeat (split; [reflexivity|]). intros; reflexivity.
Qed.

(** A pane that stays open keeps every member of its set through the
    clean-up, closed or not. *)
Lemma cleanup_keeps_references w s leaf other :
  leaf ∈ iterateAllLeaves w →
  linkedTo (linkedLeaves s) leaf other →
  linkedTo (linkedLeaves (cleanupClosedLeaves w s)) leaf other.
Proof.
  intros Hlive [set [Hset Hin]]. exists set. split; [|done].
  rewrite cleanup_lookup. by rewrite decide_True.
Qed.

(** C3 (the code departs from it).  The claim: after the clean-up neither
    the entry of a closed pane nor any reference to it from another pane's
    set remains.  With 1 linked to 2 and pane 2 closed, the clean-up deletes
    the entry of 2, and the set of 1 is still {2}: 1 keeps 2 as its partner
    and stays marked. *)
Theorem cleanup_keeps_link_to_closed_leaf :
  let closed2 := Scenario.mainArea [1; 3] in
  let s := cleanupClosedLeaves closed2 Scenario.linked12 in
  (2 ∉ iterateAllLeaves closed2) ∧
  linkedLeaves s !! 2 = None ∧
  linkedLeaves s !! 1 = Some [2] ∧
  getPartner (linkedLeaves s) 1 = Some 2 ∧
  isMarkedLinked (linkedLeaves s) 1 = true.
Proof.
  cbv zeta. split; [|repeat split; reflexivity].
  cbn. rewrite !not_elem_of_cons. repeat split; try done. apply not_elem_of_nil.
Qed.



(** The flag is down again as soon as the call returns: an event for the
    partner that arrives afterwards is an ordinary navigation event, and
    the partner's document goes to the source. *)
Remark later_event_is_propagated :
  calls (activeLeafChange 2 (Scenario.mainArea [1; 2; 3]) Scenario.linked12 (Some 2))
    = [OpenFile 1 Scenario.notes].
Proof. reflexivity. Qed.


(** C5.  When the source pane shows no document, [linkLeafWithPartner]
    returns [null], calls nothing in the host and leaves the plugin as it
    was, in both revisions and whatever the host would do. *)
Theorem link_without_document w openFile s activeLeaf createIfNone :
  fileOfView (leaf_view w activeLeaf) = None →
  linkLeafWithPartner w openFile s activeLeaf createIfNone
    = mkRun (Returns None) s [] ∧
  MainTs.linkLeafWithPartner w openFile s activeLeaf createIfNone
    = mkRun (Returns None) s [].
Proof.
  intros Hnone. unfold linkLeafWithPartner, MainTs.linkLeafWithPartner.
  by rewrite Hnone.
Qed.

Lemma link_without_document_witness :
  linkLeafWithPartner Scenario.broken (host 2 Scenario.broken) Scenario.linked12 2 true
    = mkRun (Returns None) Scenario.linked12 [] ∧
  MainTs.linkLeafWithPartner Scenario.broken (host 2 Scenario.broken)
    Scenario.linked12 2 true
    = mkRun (Returns None) Scenario.linked12 [].
Proof.
  apply (link_without_document Scenario.broken (host 2 Scenario.broken)
           Scenario.linked12 2 true).
  reflexivity.
Defined.

(** C6, as the code has it.  A pane whose parent chain does not reach the
    root split is never the partner the search selects, whatever document
    it shows; the only pane outside the main area that
    [linkLeafWithPartner] can return is the pane the host has just created
    by splitting the source, which is not tested.  Both revisions,
    whatever the host does while a file opens. *)
Theorem outside_leaf_never_partner w openFile s activeLeaf createIfNone outside :
  (∀ root, rootSplit w = Some root → isInRootSplit w root outside = false) →
  createLeafBySplit w activeLeaf ≠ Some outside →
  (∀ activeFilePath, findPartner w activeLeaf activeFilePath ≠ Some outside) ∧
  completion (linkLeafWithPartner w openFile s activeLeaf createIfNone)
    ≠ Returns (Some outside) ∧
  completion (MainTs.linkLeafWithPartner w openFile s activeLeaf createIfNone)
    ≠ Returns (Some outside).
Proof.
  intros Hout Hnew.
  assert (completion (linkLeafWithPartner w openFile s activeLeaf createIfNone)
            ≠ Returns (Some outside)) as Hlater.
  { unfold linkLeafWithPartner.
    destruct (fileOfView _) as [activeFile|]; [|done].
    pose proof (resolvePartner_outside w openFile s activeLeaf activeFile createIfNone
                  outside Hout Hnew) as Hresolved.
    destruct (resolvePartner _ _ _ _ _ _) as [[[p|]| |] s' log]; cbn in *; congruence. }
  split; [|split; [done|]].
  - intros activeFilePath. by apply findPartner_outside.
  - rewrite mainTs_link_eq.
    destruct (completion (linkLeafWithPartner w openFile s activeLeaf createIfNone))
      eqn:Hc; rewrite ?Hc; cbn; congruence.
Qed.

Lemma outside_leaf_never_partner_witness :
  fileOfView (leaf_view (Scenario.mainArea [1; 7; 2]) 7) = Some Scenario.notes ∧
  completion (linkLeafWithPartner (Scenario.mainArea [1; 7; 2])
                (host 2 (Scenario.mainArea [1; 7; 2])) (initial true) 1 true)
    ≠ Returns (Some 7).
Proof.
  split; [reflexivity|].
  apply (outside_leaf_never_partner (Scenario.mainArea [1; 7; 2])
           (host 2 (Scenario.mainArea [1; 7; 2])) (initial true) 1 true 7).
  - intros root Hroot. injection Hroot as <-. reflexivity.
  - discriminate.
Defined.

Example sidebar_leaf_is_skipped :
  completion (linkLeafWithPartner (Scenario.mainArea [1; 7; 2])
                (host 2 (Scenario.mainArea [1; 7; 2])) (initial true) 1 true)
    = Returns (Some 2).
Proof. reflexivity. Qed.

(** C6 as stated, that no pane outside the main area is ever the partner,
    fails for a source that sits in a sidebar: nothing in the main area
    shows its document, the source is split, and the new leaf, whose
    parent chain does not reach the root split either, becomes the
    partner. *)
Lemma split_of_sidebar_source_is_partner :
  ¬ (∀ w openFile s activeLeaf createIfNone outside,
       (∀ root, rootSplit w = Some root → isInRootSplit w root outside = false) →
       completion (linkLeafWithPartner w openFile s activeLeaf createIfNone)
         ≠ Returns (Some outside)).
Proof.
  intros Hclaim.
  apply (Hclaim Split.sidebarSource (host 2 Split.sidebarSource) (initial true) 7 true 8).
  - intros root Hroot. injection Hroot as <-. reflexivity.
  - reflexivity.
Qed.






Example link_while_disabled :
  let w := Scenario.mainArea [1; 2; 3] in
  let r := linkAndNotify w (host 2 w) (initial false) 1 in
  calls r = [NewNotice "Linked with one pane for sync"] ∧
  linkedLeaves (after r) = linkedLeaves Scenario.linked12 ∧
  calls (activeLeafChange 2 (Scenario.afterNavigation [1; 2; 3]) (after r) (Some 1)) = [].
Proof. repeat split; reflexivity. Qed.

Example link_with_events :
  let on := linkAndNotify Split.noisy (host 2 Split.noisy) Scenario.linked12 1 in
  let off := linkAndNotify Split.noisy (host 2 Split.noisy)
               (with_enabled false Scenario.linked12) 1 in
  completion on = Throws ∧
  calls on = [CreateLeafBySplit 1; OpenFile 4 Scenario.draft; OpenFile 1 Scenario.notes] ∧
  after on = Scenario.linked12 ∧
  completion off = Returns tt ∧
  linkedLeaves (after off) !! 4 = Some [1].
Proof. repeat split; reflexivity. Qed.

(** C8.  Once [syncFileToLinkedLeaves] is past its [if (!file) return],
    [isSyncing] is false when it ends, whether it returns or [openFile]
    throws, and whatever the host did to the plugin in between (without a
    file the flag is not touched); and in every session the flag is false
    after each callback. *)
Theorem isSyncing_reset w openFile s sourceLeaf file :
  (∀ leaf f, completion (openFile leaf f (with_isSyncing true s)) ≠ OutOfFuel) →
  (let r := syncFileToLinkedLeaves w openFile s sourceLeaf file in
   completion r ≠ OutOfFuel ∧
   isSyncing (after r) = match file with Some _ => false | None => isSyncing s end) ∧
  (∀ n enabled trace, isSyncing (runTrace (S (S n)) (initial enabled) trace) = false).
Proof.
  intros Hhost. split; [|intros; apply isSyncing_runTrace].
  cbv zeta. unfold syncFileToLinkedLeaves. destruct file as [f|]; [|done].
  cbn [linkedLeaves with_isSyncing].
  destruct (linkedLeaves s !! sourceLeaf) as [[|leaf rest]|]; try done.
  destruct (leaf_view w leaf); [|done].
  cbn [completion after calls]. specialize (Hhost leaf f).
  by destruct (completion (openFile leaf f (with_isSyncing true s))).
Qed.

Lemma isSyncing_reset_witness :
  let r := syncFileToLinkedLeaves Scenario.throwing
             (hostOpenFile Scenario.throwing (activeLeafChange 1 Scenario.throwing))
             Scenario.linked12 1 (Some Scenario.draft) in
  completion r = Throws ∧ isSyncing (after r) = false.
Proof.
  split; [reflexivity|].
  apply (isSyncing_reset Scenario.throwing
           (hostOpenFile Scenario.throwing (activeLeafChange 1 Scenario.throwing))
           Scenario.linked12 1 (Some Scenario.draft)).
  intros leaf f. vm_compute. discriminate.
Defined.

(** C9.  The clean-up leaves the entry of every pane that is still open
    as it was, set included; an entry it leaves was there before and
    belongs to an open pane; the settings and the flag are not touched. *)
Theorem cleanup_frame w s leaf :
  leaf ∈ iterateAllLeaves w →
  linkedLeaves (cleanupClosedLeaves w s) !! leaf = linkedLeaves s !! leaf ∧
  (∀ other set,
     linkedLeaves (cleanupClosedLeaves w s) !! other = Some set →
     linkedLeaves s !! other = Some set ∧ other ∈ iterateAllLeaves w) ∧
  settings_enabled (cleanupClosedLeaves w s) = settings_enabled s ∧
  isSyncing (cleanupClosedLeaves w s) = isSyncing s.
Proof.
  intros Hlive. split; [|split; [|done]].
  - rewrite cleanup_lookup. by rewrite decide_True.
  - intros other set. rewrite cleanup_lookup. by case_decide.
Qed.

Lemma cleanup_frame_witness :
  linkedLeaves (cleanupClosedLeaves (Scenario.mainArea [1; 3]) Scenario.relinked13) !! 1
    = Some [3].
Proof.
  pose proof (cleanup_frame (Scenario.mainArea [1; 3]) Scenario.relinked13 1) as H.
  destruct H as [H _].
  - cbn. apply elem_of_cons. by left.
  - rewrite H. reflexivity.
Defined.

(** C10, as the code has it.  A propagation call for a source whose set
    is not empty looks at the first member only: when that pane has a view
    it is the one pane told to load the document, and when it has none no
    pane is told anything; the other members of the set are never
    instructed. *)
Theorem propagate_first_member_only n w s sourceLeaf f first rest :
  linkedLeaves s !! sourceLeaf = Some (first :: rest) →
  calls (propagate (S n) w s sourceLeaf (Some f)) =
    match leaf_view w first with
    | Some _ => [OpenFile first f]
    | None => []
    end.
Proof.
  intros Hset. rewrite propagate_eq, Hset. by destruct (leaf_view w first).
Qed.

Lemma propagate_first_member_only_witness :
  calls (propagate 1 (Scenario.mainArea [1; 2; 3])
           (with_linkedLeaves {[ 1 := [3; 2] ]} (initial true)) 1 (Some Scenario.draft))
    = [OpenFile 3 Scenario.draft].
Proof.
  apply (propagate_first_member_only 0 (Scenario.mainArea [1; 2; 3])
           (with_linkedLeaves {[ 1 := [3; 2] ]} (initial true)) 1 Scenario.draft 3 [2]).
  reflexivity.
Defined.

(** C10 as stated, that exactly one pane is instructed whenever the set is
    not empty, fails when the first member has no view: the source 1 has
    the set {2}, pane 2 has no view, and the call instructs nobody. *)
Lemma partner_without_view_not_instructed :
  ¬ (∀ n w s sourceLeaf f first rest,
       linkedLeaves s !! sourceLeaf = Some (first :: rest) →
       calls (propagate (S n) w s sourceLeaf (Some f)) = [OpenFile first f]).
Proof.
  intros Hclaim.
  specialize (Hclaim 0 Scenario.broken Scenario.linked12 1 Scenario.draft 2 []).
  discriminate Hclaim. reflexivity.
Qed.

(** ** Further properties: the link operation *)

Lemma reachesRoot_elem root chain :
  reachesRoot root chain = bool_decide (root ∈ chain).
Proof.
  induction chain as [|parent rest IH]; cbn [reachesRoot].
  - symmetry. apply bool_decide_eq_false_2, not_elem_of_nil.
  - destruct (decide (parent = root)) as [->|Hne].
    + symmetry. apply bool_decide_eq_true_2, elem_of_cons. by left.
    + rewrite IH. apply bool_decide_ext. rewrite elem_of_cons.
      split; [by right|]. by intros [Heq|Hin].
Qed.

Lemma visitLeaf_eligible w root activeLeaf activeFilePath partner leaf :
  visitLeaf w root activeLeaf activeFilePath partner leaf =
    match partner with
    | Some found => Some found
    | None =>
        if eligible w root activeLeaf activeFilePath leaf then Some leaf else None
    end.
Proof.
  unfold visitLeaf, eligible, isInRootSplit. rewrite reachesRoot_elem.
  destruct partner as [found|].
  - destruct (bool_decide (root ∈ parents w leaf)); cbn [negb]; [|done].
    by rewrite andb_false_r.
  - destruct (bool_decide (root ∈ parents w leaf)); cbn [negb andb]; [|done].
    rewrite (bool_decide_eq_true_2 (None = None)) by done. rewrite andb_true_r.
    destruct (bool_decide (leaf ≠ activeLeaf)); cbn [andb]; [|done].
    destruct (fileOfView _) as [leafFile|]; [|done].
    by destruct (bool_decide (path leafFile = activeFilePath)).
Qed.

Lemma foldl_visitLeaf_eligible w root activeLeaf activeFilePath leaves partner :
  foldl (visitLeaf w root activeLeaf activeFilePath) partner leaves =
    match partner with
    | Some found => Some found
    | None =>
        head (filter (λ leaf, eligible w root activeLeaf activeFilePath leaf) leaves)
    end.
Proof.
  revert partner. induction leaves as [|leaf leaves IH]; intros partner; cbn [foldl].
  - by destruct partner.
  - rewrite IH, visitLeaf_eligible. destruct partner as [found|]; [done|].
    rewrite filter_cons.
    by destruct (eligible w root activeLeaf activeFilePath leaf).
Qed.

(** X1.  The search returns the first leaf, in the order the host lists
    them, that lies under the root split, is not the source and shows a
    file with the source's path; it returns nothing when there is no such
    leaf or no root split. *)
Theorem findPartner_first_match w activeLeaf activeFilePath :
  findPartner w activeLeaf activeFilePath =
    match rootSplit w with
    | Some root =>
        head (filter (λ leaf, eligible w root activeLeaf activeFilePath leaf)
                     (iterateAllLeaves w))
    | None => None
    end.
Proof.
  unfold findPartner. destruct (rootSplit w) as [root|]; [|done].
  apply foldl_visitLeaf_eligible.
Qed.

Lemma head_filter_Some {A} (P : A → Prop) `{!∀ x, Decision (P x)} (l : list A) x :
  head (filter P l) = Some x → x ∈ l ∧ P x.
Proof.
  intros Hhead. apply and_comm, (list_elem_of_filter P l x).
  destruct (filter P l) as [|y rest]; [done|].
  injection Hhead as ->. apply elem_of_cons. by left.
Qed.

(** X2.  A leaf the search returns is one the host lists, is not the
    source, has the root split among its parents and shows a file whose
    path is the one searched for. *)
Theorem findPartner_sound w activeLeaf activeFilePath found :
  findPartner w activeLeaf activeFilePath = Some found →
  found ∈ iterateAllLeaves w ∧
  found ≠ activeLeaf ∧
  (∃ root, rootSplit w = Some root ∧ root ∈ parents w found) ∧
  (∃ leafFile, fileOfView (leaf_view w found) = Some leafFile ∧
               path leafFile = activeFilePath).
Proof.
  rewrite findPartner_first_match.
  destruct (rootSplit w) as [root|]; [|done].
  intros [Hin Hel]%head_filter_Some. unfold eligible in Hel.
  apply andb_prop_elim in Hel as [Hel Hfile].
  apply andb_prop_elim in Hel as [Hroot Hne].
  apply bool_decide_unpack in Hroot, Hne.
  split; [done|]. split; [done|]. split; [by exists root|].
  destruct (fileOfView _) as [leafFile|]; [|done].
  exists leafFile. split; [done|]. by apply bool_decide_unpack in Hfile.
Qed.

Lemma findPartner_sound_witness :
  2 ∈ iterateAllLeaves (Scenario.mainArea [1; 7; 2]) ∧
  2 ≠ 1 ∧
  (∃ root, rootSplit (Scenario.mainArea [1; 7; 2]) = Some root ∧
           root ∈ parents (Scenario.mainArea [1; 7; 2]) 2) ∧
  (∃ leafFile, fileOfView (leaf_view (Scenario.mainArea [1; 7; 2]) 2) = Some leafFile ∧
               path leafFile = "notes.md").
Proof.
  apply (findPartner_sound (Scenario.mainArea [1; 7; 2]) 1 "notes.md" 2).
  reflexivity.
Defined.

(** X3.  When [linkLeafWithPartner] returns a partner, the partner's set
    is exactly the source, the source's set is exactly the partner, every
    other entry of the registry is as before, and the setting and the flag
    are untouched, whatever events the host raised while a new leaf opened
    the file. *)
Theorem link_records_pair n w s activeLeaf createIfNone partner :
  completion (linkLeafWithPartner w (host (S (S n)) w) s activeLeaf createIfNone)
    = Returns (Some partner) →
  let s' := after (linkLeafWithPartner w (host (S (S n)) w) s activeLeaf createIfNone) in
  linkedLeaves s' !! partner = Some [activeLeaf] ∧
  (activeLeaf ≠ partner → linkedLeaves s' !! activeLeaf = Some [partner]) ∧
  (∀ other, other ≠ partner → other ≠ activeLeaf →
     linkedLeaves s' !! other = linkedLeaves s !! other) ∧
  settings_enabled s' = settings_enabled s ∧
  isSyncing s' = isSyncing s.
Proof.
  intros Hret. cbv zeta.
  pose proof (linkLeafWithPartner_registry w _ s activeLeaf createIfNone
                (host_restoring n w)) as Hreg.
  cbv zeta in Hreg. rewrite Hret in Hreg. rewrite Hreg.
  cbn [linkedLeaves with_linkedLeaves settings_enabled isSyncing].
  split; [|split; [|split; [|done]]].
  - rewrite recordPair_lookup. by rewrite decide_True.
  - intros Hne. rewrite recordPair_lookup.
    rewrite decide_False by done. by rewrite decide_True.
  - intros other Hp Ha. rewrite recordPair_lookup. by rewrite !decide_False.
Qed.

Lemma link_records_pair_witness :
  let s' := after (linkLeafWithPartner Split.afterLoad (host 2 Split.afterLoad)
                     (with_enabled false Scenario.linked12) 3 true) in
  linkedLeaves s' !! 4 = Some [3] ∧
  (3 ≠ 4 → linkedLeaves s' !! 3 = Some [4]) ∧
  (∀ other, other ≠ 4 → other ≠ 3 →
     linkedLeaves s' !! other = linkedLeaves (with_enabled false Scenario.linked12) !! other) ∧
  settings_enabled s' = settings_enabled (with_enabled false Scenario.linked12) ∧
  isSyncing s' = isSyncing (with_enabled false Scenario.linked12).
Proof.
  apply (link_records_pair 0 Split.afterLoad (with_enabled false Scenario.linked12)
           3 true 4).
  reflexivity.
Defined.

(** X4.  Whatever callbacks run in whatever workspaces, starting from the
    plugin as constructed, no set of the registry ever has more than one
    member. *)
Theorem session_sets_have_at_most_one_member n enabled trace :
  exclusive (linkedLeaves (runTrace (S (S n)) (initial enabled) trace)).
Proof.
  induction trace as [|[w ev] trace IH] using rev_ind.
  - intros leaf set. cbn. by rewrite lookup_empty.
  - rewrite runTrace_snoc. by apply exclusive_dispatch.
Qed.

(** X5.  Linking a source with a partner other than itself, when neither
    has a link, keeps a symmetric registry symmetric. *)
Theorem first_link_keeps_symmetry n w s activeLeaf createIfNone partner :
  completion (linkLeafWithPartner w (host (S (S n)) w) s activeLeaf createIfNone)
    = Returns (Some partner) →
  activeLeaf ≠ partner →
  symmetric (linkedLeaves s) →
  unlinked (linkedLeaves s) activeLeaf →
  unlinked (linkedLeaves s) partner →
  symmetric (linkedLeaves
               (after (linkLeafWithPartner w (host (S (S n)) w) s activeLeaf createIfNone))).
Proof.
  intros Hret Hne Hsym Ha Hp.
  pose proof (linkLeafWithPartner_registry w _ s activeLeaf createIfNone
                (host_restoring n w)) as Hreg.
  cbv zeta in Hreg. rewrite Hret in Hreg. rewrite Hreg.
  by apply symmetric_recordPair_unlinked.
Qed.

Lemma first_link_keeps_symmetry_witness :
  symmetric (linkedLeaves
               (after (linkLeafWithPartner (Scenario.mainArea [1; 2; 3])
                         (host 2 (Scenario.mainArea [1; 2; 3])) (initial true) 1 true))).
Proof.
  apply (first_link_keeps_symmetry 0 (Scenario.mainArea [1; 2; 3]) (initial true) 1 true 2).
  - reflexivity.
  - discriminate.
  - apply symmetric_empty.
  - apply unlinked_empty.
  - apply unlinked_empty.
Defined.

Lemma recordPair_idempotent a p (m : gmap nat (list nat)) :
  recordPair a p (recordPair a p m) = recordPair a p m.
Proof.
  apply map_eq. intros k. rewrite !recordPair_lookup.
  by repeat case_decide.
Qed.

(** X6.  Which of the two panes is the source does not matter to the
    registry: pairing [a] with [p] and pairing [p] with [a] leave the same
    registry. *)
Theorem recordPair_either_side a p (m : gmap nat (list nat)) :
  recordPair a p m = recordPair p a m.
Proof.
  apply map_eq. intros k. rewrite !recordPair_lookup.
  repeat case_decide; by simplify_eq.
Qed.

(** X7.  When a leaf with the source's document is found, the link
    operation returns it without any call into the host (no split, no
    file opened), whether splitting is allowed or not and whatever the
    host would do; and the same operation once more, in the same
    workspace, returns the same partner and leaves the plugin as it is. *)
Theorem link_with_found_partner w openFile s activeLeaf createIfNone activeFile found :
  fileOfView (leaf_view w activeLeaf) = Some activeFile →
  findPartner w activeLeaf (path activeFile) = Some found →
  let r := linkLeafWithPartner w openFile s activeLeaf createIfNone in
  completion r = Returns (Some found) ∧
  calls r = [] ∧
  linkLeafWithPartner w openFile (after r) activeLeaf createIfNone
    = mkRun (Returns (Some found)) (after r) [].
Proof.
  intros Hfile Hfound. cbv zeta. unfold linkLeafWithPartner, resolvePartner.
  rewrite Hfile, Hfound. cbn [completion calls after linkedLeaves with_linkedLeaves].
  split; [done|]. split; [done|].
  rewrite recordPair_idempotent. done.
Qed.

Lemma link_with_found_partner_witness :
  let w := Scenario.mainArea [1; 2; 3] in
  let r := linkLeafWithPartner w (host 2 w) (initial true) 1 true in
  completion r = Returns (Some 2) ∧
  calls r = [] ∧
  linkLeafWithPartner w (host 2 w) (after r) 1 true
    = mkRun (Returns (Some 2)) (after r) [].
Proof.
  apply (link_with_found_partner (Scenario.mainArea [1; 2; 3])
           (host 2 (Scenario.mainArea [1; 2; 3])) (initial true) 1 true
           Scenario.notes 2); reflexivity.
Defined.



(** X10.  The source is never its own partner: the search does not return
    it, and the link operation returns it in neither revision unless the
    host hands the source back as the result of the split. *)
Theorem link_never_self w openFile s activeLeaf createIfNone :
  createLeafBySplit w activeLeaf ≠ Some activeLeaf →
  (∀ activeFilePath, findPartner w activeLeaf activeFilePath ≠ Some activeLeaf) ∧
  completion (linkLeafWithPartner w openFile s activeLeaf createIfNone)
    ≠ Returns (Some activeLeaf) ∧
  completion (MainTs.linkLeafWithPartner w openFile s activeLeaf createIfNone)
    ≠ Returns (Some activeLeaf).
Proof.
  intros Hnew.
  assert (∀ activeFilePath, findPartner w activeLeaf activeFilePath ≠ Some activeLeaf)
    as Hsearch.
  { intros activeFilePath Hfound. unfold findPartner in Hfound.
    destruct (rootSplit w) as [root|]; [|done].
    rewrite foldl_visitLeaf_eligible in Hfound.
    apply head_filter_Some in Hfound as [_ Hel]. unfold eligible in Hel.
    apply andb_prop_elim in Hel as [Hel _].
    apply andb_prop_elim in Hel as [_ Hne].
    by apply bool_decide_unpack in Hne. }
  assert (completion (linkLeafWithPartner w openFile s activeLeaf createIfNone)
            ≠ Returns (Some activeLeaf)) as Hlater.
  { unfold linkLeafWithPartner, resolvePartner.
    destruct (fileOfView _) as [activeFile|]; [|done].
    specialize (Hsearch (path activeFile)).
    destruct (findPartner _ _ _) as [found|]; [cbn; congruence|].
    destruct createIfNone; [|done]. unfold createPartner.
    destruct (createLeafBySplit_throws _ _); [done|].
    destruct (createLeafBySplit w activeLeaf) as [newLeaf|]; [|done].
    cbn. destruct (completion (openFile _ _ _)); cbn; congruence. }
  split; [done|]. split; [done|].
  rewrite mainTs_link_eq.
  destruct (completion (linkLeafWithPartner w openFile s activeLeaf createIfNone)) eqn:Hc;
    rewrite ?Hc; cbn; congruence.
Qed.

Lemma link_never_self_witness :
  completion (linkLeafWithPartner (Scenario.mainArea [1]) (host 2 (Scenario.mainArea [1]))
                (initial true) 1 true)
    ≠ Returns (Some 1).
Proof.
  apply (link_never_self (Scenario.mainArea [1]) (host 2 (Scenario.mainArea [1]))
           (initial true) 1 true).
  discriminate.
Defined.

(** ** Further properties: propagation *)

Lemma propagate_completes n w s sourceLeaf f :
  completion (propagate (S n) w s sourceLeaf (Some f)) ≠ OutOfFuel ∧
  (length (calls (propagate (S n) w s sourceLeaf (Some f))) ≤ 1)%nat.
Proof.
  rewrite propagate_eq.
  destruct (linkedLeaves s !! sourceLeaf) as [[|leaf rest]|]; cbn; try (split; [done|lia]).
  destruct (leaf_view w leaf); cbn; [|split; [done|lia]].
  destruct (openFile_throws w leaf f); split; done || lia.
Qed.

(** X11.  With fuel for one level of nesting the navigation handler always
    ends, whatever events the host raises while a file is being opened; it
    instructs at most one load, and it leaves the registry, the setting and
    the flag as it found them. *)
Theorem navigation_leaves_plugin n w s leaf :
  let r := activeLeafChange (S (S n)) w s leaf in
  completion r ≠ OutOfFuel ∧ (length (calls r) ≤ 1)%nat ∧ after r = s.
Proof.
  cbv zeta. split; [|split; [|apply activeLeafChange_after]].
  - rewrite activeLeafChange_eq. destruct (_ || _); [done|].
    destruct leaf as [l|]; [|done]. destruct (fileOfView _) as [file|]; [|done].
    apply propagate_completes.
  - rewrite activeLeafChange_eq. destruct (_ || _); [cbn; lia|].
    destruct leaf as [l|]; [|cbn; lia].
    destruct (fileOfView _) as [file|]; [|cbn; lia].
    apply propagate_completes.
Qed.

(** X12.  A navigation event for a leaf that has no partner (no entry, or
    an empty set) is no error: the handler returns, instructs nothing and
    changes nothing. *)
Theorem navigation_without_partner n w s leaf :
  getPartner (linkedLeaves s) leaf = None →
  activeLeafChange (S (S n)) w s (Some leaf) = mkRun (Returns tt) s [].
Proof.
  intros Hnone. rewrite activeLeafChange_eq.
  destruct (settings_enabled s) eqn:Hen, (isSyncing s) eqn:Hsync; cbn [negb orb]; try done.
  rewrite bool_decide_eq_false_2 by done.
  destruct (fileOfView _) as [file|]; [|done].
  rewrite propagate_eq. unfold getPartner in Hnone.
  assert (with_isSyncing false s = s) as ->
    by (rewrite <- Hsync; apply with_isSyncing_same).
  by destruct (linkedLeaves s !! leaf) as [[|first rest]|].
Qed.

Lemma navigation_without_partner_witness :
  activeLeafChange 2 (Scenario.mainArea [1; 2; 3]) Scenario.linked12 (Some 3)
    = mkRun (Returns tt) Scenario.linked12 [].
Proof.
  apply (navigation_without_partner 0 (Scenario.mainArea [1; 2; 3]) Scenario.linked12 3).
  reflexivity.
Defined.

Lemma settings_dispatch n w s ev :
  settings_enabled (after (dispatch (S (S n)) w s ev)) = settings_enabled s.
Proof.
  destruct ev as [|leaf|leaf|]; cbn [dispatch after].
  - unfold linkCommand. destruct (getLeaf w) as [activeLeaf|]; [|done].
    rewrite linkAndNotify_after.
    pose proof (linkLeafWithPartner_registry w _ s activeLeaf true (host_restoring n w))
      as Hr.
    cbv zeta in Hr. by destruct (completion _) as [[p|]| |]; rewrite Hr.
  - rewrite linkAndNotify_after.
    pose proof (linkLeafWithPartner_registry w _ s leaf true (host_restoring n w)) as Hr.
    cbv zeta in Hr. by destruct (completion _) as [[p|]| |]; rewrite Hr.
  - by rewrite activeLeafChange_after.
  - done.
Qed.

(** X14.  No callback writes the setting: at every point of every session
    [enabled] is what was loaded. *)
Theorem session_keeps_setting n enabled trace :
  settings_enabled (runTrace (S (S n)) (initial enabled) trace) = enabled.
Proof.
  induction trace as [|[w ev] trace IH] using rev_ind; [done|].
  by rewrite runTrace_snoc, settings_dispatch.
Qed.

(** ** Further properties: the [file-open] handler of the earlier revision *)

Lemma fileOpen_guarded n w raised s file :
  isSyncing s = true →
  MainTsHost.fileOpen (S n) w raised s file = mkRun (Returns tt) s [].
Proof.
  intros Hflag. cbn [MainTsHost.fileOpen]. by apply mainTs_onFileOpen_gated; right.
Qed.

Lemma raiseFileOpen_guarded n w raised events s :
  isSyncing s = true →
  MainTsHost.raiseFileOpen (MainTsHost.fileOpen (S n) w raised) events s
    = mkRun (Returns tt) s [].
Proof.
  intros Hflag. induction events as [|ev events IH]; [done|].
  cbn [MainTsHost.raiseFileOpen]. rewrite fileOpen_guarded by done.
  cbn [completion after calls]. by rewrite IH.
Qed.

Lemma mainTs_propagate_eq n w raised s sourceLeaf f :
  syncFileToLinkedLeaves w
    (MainTsHost.hostOpenFile w raised (MainTsHost.fileOpen (S n) w raised))
    s sourceLeaf (Some f) =
    match linkedLeaves s !! sourceLeaf with
    | Some (leaf :: _) =>
        match leaf_view w leaf with
        | Some _ =>
            mkRun (if openFile_throws w leaf f then Throws else Returns tt)
                  (with_isSyncing false s) [OpenFile leaf f]
        | None => mkRun (Returns tt) (with_isSyncing false s) []
        end
    | _ => mkRun (Returns tt) (with_isSyncing false s) []
    end.
Proof.
  unfold syncFileToLinkedLeaves. cbn [linkedLeaves with_isSyncing].
  destruct (linkedLeaves s !! sourceLeaf) as [[|leaf rest]|]; try done.
  destruct (leaf_view w leaf); [|done].
  unfold MainTsHost.hostOpenFile. rewrite raiseFileOpen_guarded by done.
  cbn [completion after calls]. by destruct (openFile_throws w leaf f).
Qed.

Lemma fileOpen_eq n w raised s file :
  MainTsHost.fileOpen (S (S n)) w raised s file =
    MainTs.onFileOpen w
      (MainTsHost.hostOpenFile w raised (MainTsHost.fileOpen (S n) w raised)) s file.
Proof. reflexivity. Qed.

(** X15.  In the earlier revision the source of a propagation is the
    active leaf: when a file is opened, the partner of
    [workspace.activeLeaf] is told to load it, once, and the [file-open]
    events the host raises before [openFile] returns instruct nothing
    more. *)
Theorem mainTs_fileOpen_propagates n w raised s activeLeaf partner rest f :
  settings_enabled s = true →
  isSyncing s = false →
  getLeaf w = Some activeLeaf →
  is_Some (leaf_view w activeLeaf) →
  linkedLeaves s !! activeLeaf = Some (partner :: rest) →
  is_Some (leaf_view w partner) →
  let r := MainTsHost.fileOpen (S (S n)) w raised s (Some f) in
  completion r = (if openFile_throws w partner f then Throws else Returns tt) ∧
  calls r = [OpenFile partner f] ∧
  after r = s.
Proof.
  intros Hen Hsync Hactive [view Hview] Hset [pview Hpview]. cbv zeta.
  rewrite fileOpen_eq. unfold MainTs.onFileOpen.
  rewrite Hen, Hsync, Hactive, Hview. cbn [negb orb].
  rewrite bool_decide_eq_false_2 by done.
  rewrite mainTs_propagate_eq, Hset, Hpview. cbn [completion calls after].
  repeat split. rewrite <- Hsync. apply with_isSyncing_same.
Qed.

Lemma mainTs_fileOpen_propagates_witness :
  let r := MainTsHost.fileOpen 2 (Scenario.mainArea [1; 2; 3])
             (λ _ f, [Some f; None]) Scenario.linked12 (Some Scenario.draft) in
  completion r = Returns tt ∧
  calls r = [OpenFile 2 Scenario.draft] ∧
  after r = Scenario.linked12.
Proof.
  apply (mainTs_fileOpen_propagates 0 (Scenario.mainArea [1; 2; 3])
           (λ _ f, [Some f; None]) Scenario.linked12 1 2 [] Scenario.draft);
    try reflexivity; by eexists.
Defined.

(** X16.  The [file-open] handler of the earlier revision always ends,
    instructs at most one load and leaves the plugin as it found it; with
    [enabled] off, or without a file, it instructs nothing. *)
Theorem mainTs_fileOpen_leaves_plugin n w raised s file :
  let r := MainTsHost.fileOpen (S (S n)) w raised s file in
  completion r ≠ OutOfFuel ∧ (length (calls r) ≤ 1)%nat ∧ after r = s ∧
  (if settings_enabled s then
     match file with Some _ => True | None => calls r = [] end
   else calls r = []).
Proof.
  cbv zeta. rewrite fileOpen_eq. unfold MainTs.onFileOpen.
  destruct (settings_enabled s) eqn:Hen, (isSyncing s) eqn:Hsync, file as [f|];
    cbn [negb orb]; try (repeat split; done || (cbn; lia)).
  rewrite bool_decide_eq_false_2 by done.
  destruct (getLeaf w) as [leaf|]; [|repeat split; done || (cbn; lia)].
  destruct (leaf_view w leaf); [|repeat split; done || (cbn; lia)].
  rewrite mainTs_propagate_eq.
  assert (with_isSyncing false s = s) as ->
    by (rewrite <- Hsync; apply with_isSyncing_same).
  destruct (linkedLeaves s !! leaf) as [[|first rest]|];
    try (repeat split; done || (cbn; lia)).
  destruct (leaf_view w first); [|repeat split; done || (cbn; lia)].
  destruct (openFile_throws w first f); repeat split; done || (cbn; lia).
Qed.

(** ** Further properties: clean-up *)

Lemma plugin_eq s1 s2 :
  settings_enabled s1 = settings_enabled s2 →
  isSyncing s1 = isSyncing s2 →
  linkedLeaves s1 = linkedLeaves s2 →
  s1 = s2.
Proof. destruct s1, s2. cbn. by intros -> -> ->. Qed.

(** X17.  Collecting the keys and deleting them afterwards keeps exactly
    the entries whose key the host still lists: the registry after the
    clean-up is the registry filtered by "the key is a listed leaf". *)
Theorem cleanup_is_filter w s :
  linkedLeaves (cleanupClosedLeaves w s) =
    filter (λ entry, entry.1 ∈ iterateAllLeaves w) (linkedLeaves s).
Proof.
  apply map_eq. intros k. rewrite cleanup_lookup, map_lookup_filter.
  destruct (linkedLeaves s !! k) as [set|]; cbn; [|by case_decide].
  by repeat case_guard || case_decide.
Qed.

(** X18.  Cleaning up twice against the same workspace is cleaning up
    once, and clean-ups against two workspaces can be done in either
    order. *)
Theorem cleanup_idempotent_commutes w w' s :
  cleanupClosedLeaves w (cleanupClosedLeaves w s) = cleanupClosedLeaves w s ∧
  cleanupClosedLeaves w (cleanupClosedLeaves w' s)
    = cleanupClosedLeaves w' (cleanupClosedLeaves w s).
Proof.
  split; apply plugin_eq; try done; apply map_eq; intros k;
    rewrite !cleanup_lookup; by repeat case_decide.
Qed.

(** X19.  When every key of the registry is a leaf the host lists, the
    clean-up changes nothing. *)
Theorem cleanup_all_open w s :
  (∀ leaf, is_Some (linkedLeaves s !! leaf) → leaf ∈ iterateAllLeaves w) →
  cleanupClosedLeaves w s = s.
Proof.
  intros Hlive. apply plugin_eq; try done. apply map_eq. intros k.
  rewrite cleanup_lookup. case_decide as Hk; [done|].
  destruct (linkedLeaves s !! k) as [set|] eqn:Hset; [|done].
  destruct Hk. apply Hlive. by rewrite Hset.
Qed.

Lemma cleanup_all_open_witness :
  cleanupClosedLeaves (Scenario.mainArea [1; 2; 3]) Scenario.linked12 = Scenario.linked12.
Proof.
  apply (cleanup_all_open (Scenario.mainArea [1; 2; 3]) Scenario.linked12).
  intros leaf Hsome.
  assert (linkedLeaves Scenario.linked12 = recordPair 1 2 ∅) as H12 by reflexivity.
  rewrite H12, recordPair_lookup in Hsome. cbn.
  destruct (decide (leaf = 2)) as [->|]; [apply elem_of_cons; right; apply elem_of_cons; by left|].
  destruct (decide (leaf = 1)) as [->|]; [apply elem_of_cons; by left|].
  rewrite lookup_empty in Hsome. by destruct Hsome.
Defined.

(** ** Further properties: indicators *)

Lemma count_insert (dom : gmap nat nat) leaf v k :
  Indicators.count (<[leaf := v]> dom) k =
    if decide (k = leaf) then v else Indicators.count dom k.
Proof.
  unfold Indicators.count. rewrite lookup_insert.
  by repeat case_decide; simplify_eq.
Qed.

Lemma count_removeIndicator h dom leaf k :
  Indicators.count (Indicators.removeIndicator h dom leaf) k =
    Indicators.count dom k - (if h k && bool_decide (leaf = k) then 1 else 0).
Proof.
  unfold Indicators.removeIndicator.
  destruct (decide (leaf = k)) as [->|Hne].
  - rewrite bool_decide_eq_true_2 by done. rewrite andb_true_r.
    destruct (h k); [|lia].
    destruct (Indicators.count dom k) as [|c] eqn:Hc; [lia|].
    rewrite count_insert, decide_True by done. lia.
  - rewrite bool_decide_eq_false_2 by done. rewrite andb_false_r.
    destruct (h leaf); [|lia].
    destruct (Indicators.count dom leaf) as [|c]; [lia|].
    rewrite count_insert, decide_False by done. lia.
Qed.

Lemma occurrences_cons k leaf leaves :
  Indicators.occurrences k (leaf :: leaves) =
    (if bool_decide (leaf = k) then 1 else 0) + Indicators.occurrences k leaves.
Proof.
  unfold Indicators.occurrences. rewrite filter_cons.
  case_decide; case_bool_decide; done.
Qed.

Lemma count_clear h leaves dom k :
  Indicators.count (foldl (Indicators.removeIndicator h) dom leaves) k =
    Indicators.count dom k - (if h k then Indicators.occurrences k leaves else 0).
Proof.
  revert dom. induction leaves as [|leaf leaves IH]; intros dom; cbn [foldl].
  - unfold Indicators.occurrences. cbn. destruct (h k); lia.
  - rewrite IH, count_removeIndicator, occurrences_cons.
    destruct (h k), (bool_decide (leaf = k)); cbn [andb]; lia.
Qed.

Lemma count_addIndicator h dom (entry : nat * list nat) k :
  Indicators.count (Indicators.addIndicator h dom entry) k =
    Indicators.count dom k +
    (if h k && bool_decide (entry.1 = k ∧ entry.2 ≠ []) then 1 else 0).
Proof.
  unfold Indicators.addIndicator. destruct entry as [leaf [|first rest]]; cbn [fst snd].
  - rewrite bool_decide_eq_false_2 by (by intros [_ ?]). rewrite andb_false_r. lia.
  - destruct (decide (leaf = k)) as [->|Hne].
    + rewrite bool_decide_eq_true_2 by done. rewrite andb_true_r.
      destruct (h k); [|lia]. rewrite count_insert, decide_True by done. lia.
    + rewrite bool_decide_eq_false_2 by (by intros [? _]). rewrite andb_false_r.
      destruct (h leaf); [|lia]. rewrite count_insert, decide_False by done. lia.
Qed.

Lemma count_add h (entries : list (nat * list nat)) dom k :
  Indicators.count (foldl (Indicators.addIndicator h) dom entries) k =
    Indicators.count dom k +
    (if h k then length (filter (λ entry, entry.1 = k ∧ entry.2 ≠ []) entries) else 0).
Proof.
  revert dom. induction entries as [|entry entries IH]; intros dom; cbn [foldl].
  - cbn. destruct (h k); lia.
  - rewrite IH, count_addIndicator, filter_cons.
    destruct (h k); cbn [andb]; [|lia].
    case_decide; case_bool_decide; try done; cbn [length]; lia.
Qed.

Lemma filter_none {A} (P : A → Prop) `{!∀ x, Decision (P x)} (l : list A) :
  (∀ x, x ∈ l → ¬ P x) → filter P l = [].
Proof.
  induction l as [|x l IH]; intros Hnone; [done|].
  rewrite filter_cons, decide_False.
  - apply IH. intros y Hy. apply Hnone, elem_of_cons. by right.
  - apply Hnone, elem_of_cons. by left.
Qed.

(** The entries of the registry that put an indicator on leaf [k]. *)
Lemma marked_entries (m : gmap nat (list nat)) k :
  length (filter (λ entry, entry.1 = k ∧ entry.2 ≠ []) (map_to_list m)) =
    if isMarkedLinked m k then 1 else 0.
Proof.
  unfold isMarkedLinked. destruct (m !! k) as [set|] eqn:Hset.
  - rewrite <- (map_to_list_delete m k set Hset), filter_cons.
    rewrite (filter_none _ (map_to_list (delete k m))).
    + destruct set; case_decide as Hhead; cbn in *; try done.
      * by destruct Hhead.
      * destruct Hhead. by split.
    + intros [k' set'] Hin%elem_of_map_to_list [Hk _]. cbn in Hk. subst k'.
      by rewrite lookup_delete_eq in Hin.
  - rewrite filter_none; [done|].
    intros [k' set'] Hin%elem_of_map_to_list [Hk _]. cbn in Hk. subst k'.
    by rewrite Hset in Hin.
Qed.

Lemma count_update h w s dom k :
  Indicators.count (Indicators.updateLeafVisualIndicators h w s dom) k =
    (Indicators.count dom k
       - (if h k then Indicators.occurrences k (iterateAllLeaves w) else 0))
    + (if h k && isMarkedLinked (linkedLeaves s) k then 1 else 0).
Proof.
  unfold Indicators.updateLeafVisualIndicators.
  rewrite count_add, count_clear, marked_entries.
  destruct (h k); cbn [andb]; [|lia]. by destruct (isMarkedLinked _ _).
Qed.

Lemma occurrences_listed k leaves :
  k ∈ leaves → (1 ≤ Indicators.occurrences k leaves)%nat.
Proof.
  induction leaves as [|leaf leaves IH]; intros Hin; [by apply elem_of_nil in Hin|].
  rewrite occurrences_cons. apply elem_of_cons in Hin as [->|Hin].
  - rewrite bool_decide_eq_true_2 by done. lia.
  - specialize (IH Hin). lia.
Qed.

Lemma occurrences_unlisted k leaves :
  k ∉ leaves → Indicators.occurrences k leaves = 0.
Proof.
  intros Hnin. unfold Indicators.occurrences. rewrite filter_none; [done|].
  by intros x Hx ->.
Qed.

(** X20.  One refresh takes one indicator out of the header of each leaf
    every time the host lists it, if there is one to take, and then puts
    one into the header of each leaf whose set is not empty: for a leaf
    with a header the count becomes (count - times listed) + 1 if its set
    is not empty, (count - times listed) otherwise; without a header it
    stays. *)
Theorem refresh_counts h w s dom leaf :
  Indicators.count (Indicators.updateLeafVisualIndicators h w s dom) leaf =
    if h leaf then
      (Indicators.count dom leaf - Indicators.occurrences leaf (iterateAllLeaves w))
      + (if isMarkedLinked (linkedLeaves s) leaf then 1 else 0)
    else Indicators.count dom leaf.
Proof.
  rewrite count_update. destruct (h leaf); cbn [andb]; lia.
Qed.

(** X21.  For a listed leaf with a header that carries at most one
    indicator, a refresh leaves exactly one indicator when the leaf's set
    is not empty and none when it is empty or missing. *)
Theorem refresh_marks_linked_leaves h w s dom leaf :
  h leaf = true →
  leaf ∈ iterateAllLeaves w →
  (Indicators.count dom leaf ≤ 1)%nat →
  Indicators.count (Indicators.updateLeafVisualIndicators h w s dom) leaf =
    if isMarkedLinked (linkedLeaves s) leaf then 1 else 0.
Proof.
  intros Hh Hin Hone. rewrite count_update, Hh. cbn [andb].
  pose proof (occurrences_listed leaf _ Hin). lia.
Qed.

Lemma refresh_marks_linked_leaves_witness :
  Indicators.count
    (Indicators.updateLeafVisualIndicators (λ _, true) (Scenario.mainArea [1; 2; 3])
       Scenario.relinked13 {[ 2 := 1 ]}) 2 = 1.
Proof.
  rewrite (refresh_marks_linked_leaves (λ _, true) (Scenario.mainArea [1; 2; 3])
             Scenario.relinked13 {[ 2 := 1 ]} 2).
  - reflexivity.
  - reflexivity.
  - cbn. apply elem_of_cons. right. apply elem_of_cons. by left.
  - vm_compute. lia.
Defined.

(** X22.  Under the same conditions a second refresh changes nothing: the
    indicators do not pile up. *)
Theorem refresh_twice h w s dom leaf :
  h leaf = true →
  leaf ∈ iterateAllLeaves w →
  (Indicators.count dom leaf ≤ 1)%nat →
  Indicators.count
    (Indicators.updateLeafVisualIndicators h w s
       (Indicators.updateLeafVisualIndicators h w s dom)) leaf =
  Indicators.count (Indicators.updateLeafVisualIndicators h w s dom) leaf.
Proof.
  intros Hh Hin Hone. rewrite !count_update, Hh. cbn [andb].
  pose proof (occurrences_listed leaf _ Hin).
  destruct (isMarkedLinked _ _); lia.
Qed.

Lemma refresh_twice_witness :
  Indicators.count
    (Indicators.updateLeafVisualIndicators (λ _, true) (Scenario.mainArea [1; 2; 3])
       Scenario.linked12
       (Indicators.updateLeafVisualIndicators (λ _, true) (Scenario.mainArea [1; 2; 3])
          Scenario.linked12 ∅)) 1 =
  Indicators.count
    (Indicators.updateLeafVisualIndicators (λ _, true) (Scenario.mainArea [1; 2; 3])
       Scenario.linked12 ∅) 1.
Proof.
  apply (refresh_twice (λ _, true) (Scenario.mainArea [1; 2; 3]) Scenario.linked12 ∅ 1).
  - reflexivity.
  - cbn. apply elem_of_cons. by left.
  - vm_compute. lia.
Defined.

(** X23.  The header of a leaf the host does not list is never cleared: a
    refresh adds one more indicator to it when the leaf is in the registry
    with a set that is not empty, and leaves it alone otherwise. *)
Theorem refresh_unlisted_leaf h w s dom leaf :
  h leaf = true →
  leaf ∉ iterateAllLeaves w →
  Indicators.count (Indicators.updateLeafVisualIndicators h w s dom) leaf =
    Indicators.count dom leaf + (if isMarkedLinked (linkedLeaves s) leaf then 1 else 0).
Proof.
  intros Hh Hnin. rewrite count_update, Hh, occurrences_unlisted by done.
  cbn [andb]. lia.
Qed.

Lemma refresh_unlisted_leaf_witness :
  Indicators.count
    (Indicators.updateLeafVisualIndicators (λ _, true) (Scenario.mainArea [1; 3])
       Scenario.linked12 {[ 2 := 1 ]}) 2 = 2.
Proof.
  rewrite (refresh_unlisted_leaf (λ _, true) (Scenario.mainArea [1; 3])
             Scenario.linked12 {[ 2 := 1 ]} 2).
  - reflexivity.
  - reflexivity.
  - cbn. rewrite !not_elem_of_cons. repeat split; try done. apply not_elem_of_nil.
Defined.

(** X24.  After the [layout-change] handler a listed leaf with a header
    that carried at most one indicator carries one exactly when its set
    is not empty; the header of a leaf that is not listed is as it was,
    because the clean-up has removed its entry before the refreshes. *)
Theorem layout_change_indicators h w s dom leaf :
  h leaf = true →
  let dom' := (Indicators.onLayoutChange h w s dom).2 in
  (leaf ∈ iterateAllLeaves w → (Indicators.count dom leaf ≤ 1)%nat →
     Indicators.count dom' leaf = if isMarkedLinked (linkedLeaves s) leaf then 1 else 0) ∧
  (leaf ∉ iterateAllLeaves w → Indicators.count dom' leaf = Indicators.count dom leaf).
Proof.
  intros Hh. cbv zeta. unfold Indicators.onLayoutChange. cbn [snd].
  rewrite !count_update, Hh. cbn [andb]. unfold isMarkedLinked.
  rewrite cleanup_lookup. split.
  - intros Hin Hone. rewrite decide_True by done.
    pose proof (occurrences_listed leaf _ Hin).
    destruct (linkedLeaves s !! leaf) as [[|first rest]|]; lia.
  - intros Hnin. rewrite decide_False by done.
    rewrite occurrences_unlisted by done. lia.
Qed.

Lemma layout_change_indicators_witness :
  Indicators.count
    (Indicators.onLayoutChange (λ _, true) (Scenario.mainArea [1; 3])
       Scenario.linked12 {[ 2 := 1 ]}).2 2 = 1.
Proof.
  pose proof (layout_change_indicators (λ _, true) (Scenario.mainArea [1; 3])
                Scenario.linked12 {[ 2 := 1 ]} 2 eq_refl) as [_ Hunlisted].
  rewrite Hunlisted.
  - reflexivity.
  - cbn. rewrite !not_elem_of_cons. repeat split; try done. apply not_elem_of_nil.
Defined.

(** ** Further properties: notices and settings *)

(** X25.  Asked to link a leaf that shows no document, the command and
    the menu item show the notice "No pane found or created to link", the
    same one as when no partner could be found or made, and change
    nothing. *)
Theorem link_without_document_notice w openFile s leaf :
  fileOfView (leaf_view w leaf) = None →
  linkAndNotify w openFile s leaf
    = mkRun (Returns tt) s [NewNotice "No pane found or created to link"] ∧
  (getLeaf w = Some leaf →
   linkCommand w openFile s
     = mkRun (Returns tt) s [NewNotice "No pane found or created to link"]).
Proof.
  intros Hnone.
  assert (linkAndNotify w openFile s leaf
            = mkRun (Returns tt) s [NewNotice "No pane found or created to link"])
    as Hnotify.
  { unfold linkAndNotify, linkLeafWithPartner. by rewrite Hnone. }
  split; [done|]. intros Hactive. unfold linkCommand. by rewrite Hactive.
Qed.

Lemma link_without_document_notice_witness :
  linkAndNotify Scenario.broken (host 2 Scenario.broken) Scenario.linked12 2
    = mkRun (Returns tt) Scenario.linked12
        [NewNotice "No pane found or created to link"].
Proof.
  apply (link_without_document_notice Scenario.broken (host 2 Scenario.broken)
           Scenario.linked12 2).
  reflexivity.
Defined.

(** X26.  The loaded settings take each key from the stored object when
    it has the key and from the defaults otherwise; with nothing stored
    they are the defaults; and loading what an earlier load produced
    gives the same settings back. *)
Theorem loadSettings_merge {V} (DEFAULT_SETTINGS : gmap string V)
    (data : option (gmap string V)) :
  (∀ key,
     loadSettings DEFAULT_SETTINGS data !! key =
       match data ≫= (λ stored, stored !! key) with
       | Some value => Some value
       | None => DEFAULT_SETTINGS !! key
       end) ∧
  loadSettings DEFAULT_SETTINGS None = DEFAULT_SETTINGS ∧
  loadSettings DEFAULT_SETTINGS (Some (loadSettings DEFAULT_SETTINGS data))
    = loadSettings DEFAULT_SETTINGS data.
Proof.
  assert (∀ key,
     loadSettings DEFAULT_SETTINGS data !! key =
       match data ≫= (λ stored, stored !! key) with
       | Some value => Some value
       | None => DEFAULT_SETTINGS !! key
       end) as Hlookup.
  { intros key. unfold loadSettings. rewrite lookup_union.
    destruct data as [stored|]; cbn.
    - destruct (stored !! key); by destruct (DEFAULT_SETTINGS !! key).
    - rewrite lookup_empty. by destruct (DEFAULT_SETTINGS !! key). }
  split; [done|]. split.
  - unfold loadSettings. cbn. apply map_eq. intros key.
    rewrite lookup_union, lookup_empty. by destruct (DEFAULT_SETTINGS !! key).
  - apply map_eq. intros key.
    unfold loadSettings at 1. cbn [default]. rewrite lookup_union. unfold id.
    destruct (loadSettings DEFAULT_SETTINGS data !! key) as [value|] eqn:Hkey.
    + by destruct (DEFAULT_SETTINGS !! key).
    + rewrite Hlookup in Hkey.
      destruct (data ≫= _); [done|]. by rewrite Hkey.
Qed.
